(** * Verification model of [gmdc_blender/blender_import.py]

    Shallow embedding of the GMDC import operator [ImportGMDC]:
    [execute], [import_skeleton] and [do_import].  Coordinates and weights
    are rationals ([Q]) standing for the floats of the source.  The
    host editor (scene, armature, mesh and vertex-group calls) is modelled
    as explicit state: a scene is a list of objects, an armature is the list
    of its bones in creation order, a mesh object carries its vertex
    groups.  Python exceptions are the [PRaise] outcome of [PyResult]; the
    host changes done before an exception are kept in the returned state,
    as they are in the editor.  The single-precision operations the bone
    code depends on are a parameter ([HostFloat]) of [import_skeleton_with];
    [import_skeleton] is its instance in exact arithmetic. *)

From Stdlib Require Import List Bool Arith Lia String Ascii QArith NArith.
Import ListNotations.

Open Scope Q_scope.

(** ** Vectors and quaternions (mathutils) *)

Record vec3 := V3 { vx : Q; vy : Q; vz : Q }.

Definition origin : vec3 := V3 0 0 0.

Definition vadd (a b : vec3) : vec3 :=
  V3 (vx a + vx b) (vy a + vy b) (vz a + vz b).

Definition vsub (a b : vec3) : vec3 :=
  V3 (vx a - vx b) (vy a - vy b) (vz a - vz b).

(** Componentwise equality of the exact values. *)
Definition vec_eqb (a b : vec3) : bool :=
  Qeq_bool (vx a) (vx b) && Qeq_bool (vy a) (vy b) && Qeq_bool (vz a) (vz b).

Definition dist2 (a b : vec3) : Q :=
  let d := vsub a b in vx d * vx d + vy d * vy d + vz d * vz d.

(** A quaternion, w first, as [Quaternion(bonedata.rotation)] takes it. *)
Record quat := Qt { qw : Q; qx : Q; qy : Q; qz : Q }.

Definition qmul (a b : quat) : quat :=
  Qt (qw a * qw b - qx a * qx b - qy a * qy b - qz a * qz b)
     (qw a * qx b + qx a * qw b + qy a * qz b - qz a * qy b)
     (qw a * qy b - qx a * qz b + qy a * qw b + qz a * qx b)
     (qw a * qz b + qx a * qy b - qy a * qx b + qz a * qw b).

Definition qconj (a : quat) : quat := Qt (qw a) (- qx a) (- qy a) (- qz a).

(** [rot * trans]: the vector rotated by the quaternion, q v q*. *)
Definition qrotate (q : quat) (v : vec3) : vec3 :=
  let r := qmul (qmul q (Qt 0 (vx v) (vy v) (vz v))) (qconj q) in
  V3 (qx r) (qy r) (qz r).

(** The single-precision operations of the host that the bones depend on:
    - [hf_rotate]: [rot * trans], rounded to floats;
    - [hf_eq]: [Vector.__eq__], which compares floats within one unit in the
      last place;
    - [hf_add]: [Vector] addition, rounded (a small Y added to a large one
      can be lost);
    - [hf_short head tail]: the zero-size test of [ED_armature_from_edit],
      [len_squared_v3v3(head, tail) <= SQUARE(0.000001f)] in floats. *)
Record HostFloat := {
  hf_rotate : quat -> vec3 -> vec3;
  hf_eq : vec3 -> vec3 -> bool;
  hf_add : vec3 -> vec3 -> vec3;
  hf_short : vec3 -> vec3 -> bool
}.

Definition min_bone_len : Q := 1 # 1000000.

(** The same operations in exact arithmetic. *)
Definition exact_host : HostFloat :=
  {| hf_rotate := qrotate; hf_eq := vec_eqb; hf_add := vadd;
     hf_short := fun h t => Qle_bool (dist2 h t) (min_bone_len * min_bone_len) |}.

(** ** Python outcomes *)

Inductive PyExc := IndexError | KeyError.

Inductive PyResult (A : Type) :=
| POk : A -> PyResult A
| PRaise : PyExc -> PyResult A.
Arguments POk {A} _.
Arguments PRaise {A} _.

(** ** Skeleton data ([BoneData]) and edit bones *)

Record BoneData := {
  bd_name : string;
  bd_position : vec3;
  bd_rotation : quat;
  bd_parent : option nat
}.

(** A bone; [eb_parent] is the position of the parent in the armature's
    list of bones, [eb_props] holds the custom properties tX, tY, tZ, rW,
    rX, rY, rZ written for the exporter. *)
Record EditBone := {
  eb_name : string;
  eb_head : vec3;
  eb_tail : vec3;
  eb_parent : option nat;
  eb_props : list (string * Q)
}.

(** [amt.edit_bones.new(name)]: head and tail at the origin. *)
Definition new_edit_bone (name : string) : EditBone :=
  {| eb_name := name; eb_head := origin; eb_tail := origin;
     eb_parent := None; eb_props := [] |}.

Definition set_tail (b : EditBone) (t : vec3) : EditBone :=
  {| eb_name := eb_name b; eb_head := eb_head b; eb_tail := t;
     eb_parent := eb_parent b; eb_props := eb_props b |}.

Definition set_head (b : EditBone) (h : vec3) : EditBone :=
  {| eb_name := eb_name b; eb_head := h; eb_tail := eb_tail b;
     eb_parent := eb_parent b; eb_props := eb_props b |}.

(** [bone.parent = parent]: the editor ignores a bone made its own parent. *)
Definition set_parent (b : EditBone) (self p : nat) : EditBone :=
  {| eb_name := eb_name b; eb_head := eb_head b; eb_tail := eb_tail b;
     eb_parent := if Nat.eqb p self then eb_parent b else Some p;
     eb_props := eb_props b |}.

Definition set_props (b : EditBone) (ps : list (string * Q)) : EditBone :=
  {| eb_name := eb_name b; eb_head := eb_head b; eb_tail := eb_tail b;
     eb_parent := eb_parent b; eb_props := ps |}.

(** [Vector((0,0.00001,0))] *)
Definition zero_len_eps : Q := 1 # 100000.
Definition zero_len_fix : vec3 := V3 0 zero_len_eps 0.

Definition bone_props (bd : BoneData) : list (string * Q) :=
  [("tX"%string, vx (bd_position bd)); ("tY"%string, vy (bd_position bd));
   ("tZ"%string, vz (bd_position bd));
   ("rW"%string, qw (bd_rotation bd)); ("rX"%string, qx (bd_rotation bd));
   ("rY"%string, qy (bd_rotation bd)); ("rZ"%string, qz (bd_rotation bd))].

(** One iteration of [for bonedata in skeldata] in [import_skeleton];
    [bones] are the edit bones created so far.  The new bone is in
    [amt.edit_bones] before the parent lookup, which raises [IndexError]
    for an index past it. *)
Definition build_bone_with (hf : HostFloat) (bones : list EditBone) (bd : BoneData)
  : PyResult unit * list EditBone :=
  let self := List.length bones in
  let b0 := new_edit_bone (bd_name bd) in
  let b1 := set_tail b0 (hf_rotate hf (bd_rotation bd) (bd_position bd)) in
  let step2 :=
    match bd_parent bd with
    | None => POk b1
    | Some p =>
        match nth_error (bones ++ [b1]) p with
        | None => PRaise IndexError
        | Some parent => POk (set_head (set_parent b1 self p) (eb_tail parent))
        end
    end in
  match step2 with
  | PRaise e => (PRaise e, bones ++ [b1])
  | POk b2 =>
      let b3 := if hf_eq hf (eb_tail b2) (eb_head b2)
                then set_tail b2 (hf_add hf (eb_tail b2) zero_len_fix) else b2 in
      (POk tt, bones ++ [set_props b3 (bone_props bd)])
  end.

Fixpoint build_bones_loop_with (hf : HostFloat) (skel : list BoneData)
  (bones : list EditBone) : PyResult unit * list EditBone :=
  match skel with
  | [] => (POk tt, bones)
  | bd :: rest =>
      match build_bone_with hf bones bd with
      | (POk _, bones') => build_bones_loop_with hf rest bones'
      | (PRaise e, bones') => (PRaise e, bones')
      end
  end.

Definition build_bones_loop (skel : list BoneData) (bones : list EditBone)
  : PyResult unit * list EditBone :=
  build_bones_loop_with exact_host skel bones.

(** ** Leaving edit mode ([ED_armature_from_edit]) *)

(** [ebone->parent = p], set directly by the armature code. *)
Definition with_parent (b : EditBone) (p : option nat) : EditBone :=
  {| eb_name := eb_name b; eb_head := eb_head b; eb_tail := eb_tail b;
     eb_parent := p; eb_props := eb_props b |}.

(** While bones are freed, each carries its creation index, which parent
    references name.  Freeing bone [k] whose parent is [np] makes the bones
    whose parent is [k] children of [np]. *)
Definition reparent (k : nat) (np : option nat) (l : list (nat * EditBone))
  : list (nat * EditBone) :=
  map (fun ib => (fst ib, match eb_parent (snd ib) with
                          | Some p => if Nat.eqb p k then with_parent (snd ib) np
                                      else snd ib
                          | None => snd ib
                          end)) l.

(** The loop of [ED_armature_from_edit] that frees the zero-sized bones, in
    list order: [done] are the bones kept so far, [todo] those not yet
    tested; [fuel] bounds the rounds (one bone leaves [todo] in each). *)
Fixpoint free_short (hf : HostFloat) (fuel : nat) (done todo : list (nat * EditBone))
  : list (nat * EditBone) :=
  match fuel, todo with
  | S fuel', (k, e) :: rest =>
      if hf_short hf (eb_head e) (eb_tail e)
      then free_short hf fuel' (reparent k (eb_parent e) done)
                               (reparent k (eb_parent e) rest)
      else free_short hf fuel' (done ++ [(k, e)]) rest
  | _, _ => done
  end.

Fixpoint index_of (i : nat) (ids : list nat) : option nat :=
  match ids with
  | [] => None
  | j :: r => if Nat.eqb j i then Some 0%nat else option_map S (index_of i r)
  end.

(** Back to positions: a parent reference becomes the position of that
    bone among the bones kept. *)
Definition renumber (l : list (nat * EditBone)) : list EditBone :=
  map (fun ib => with_parent (snd ib)
                   match eb_parent (snd ib) with
                   | Some p => index_of p (map fst l)
                   | None => None
                   end) l.

(** The bones of an armature once it leaves edit mode. *)
Definition mode_set_object (hf : HostFloat) (bones : list EditBone) : list EditBone :=
  renumber (free_short hf (List.length bones) []
              (combine (seq 0 (List.length bones)) bones)).

(** ** Scene model *)

(** A vertex group of a mesh object: its name and its (vertex, weight)
    entries. *)
Record VGroup := { vg_name : string; vg_weights : list (nat * Q) }.

(** Mesh data and the vertex groups of the object holding it; [me_uvs] is
    the loop data of the active UV layer, [None] before one is created. *)
Record MeshData := {
  me_vertices : list vec3;
  me_faces : list (list nat);
  me_normals : list vec3;
  me_uvs : option (list (Q * Q));
  me_vgroups : list VGroup
}.

Inductive ObjData :=
| OArmature : list EditBone -> ObjData
| OMesh : MeshData -> ObjData.

Record SceneObj := { so_name : string; so_selected : bool; so_data : ObjData }.

Definition Scene := list SceneObj.

Definition deselect (o : SceneObj) : SceneObj :=
  {| so_name := so_name o; so_selected := false; so_data := so_data o |}.

(** [bpy.ops.transform.resize(value=(1, 1, -1))] followed by
    [transform_apply(scale=True)]: both act on the selected objects, whose
    origin is the world origin ([location=(0,0,0)]).  Applying the scale to
    an armature ([ED_armature_apply_transform]) scales its bones in edit
    mode and leaves edit mode again, freeing zero-sized bones once more. *)
Definition resize_value : vec3 := V3 1 1 (-1).

Definition scale_vec (s v : vec3) : vec3 :=
  V3 (vx s * vx v) (vy s * vy v) (vz s * vz v).

Definition scale_bone (s : vec3) (b : EditBone) : EditBone :=
  {| eb_name := eb_name b; eb_head := scale_vec s (eb_head b);
     eb_tail := scale_vec s (eb_tail b); eb_parent := eb_parent b;
     eb_props := eb_props b |}.

Definition scale_data (hf : HostFloat) (s : vec3) (d : ObjData) : ObjData :=
  match d with
  | OArmature bs => OArmature (mode_set_object hf (map (scale_bone s) bs))
  | OMesh m =>
      OMesh {| me_vertices := map (scale_vec s) (me_vertices m);
               me_faces := me_faces m;
               me_normals := map (scale_vec s) (me_normals m);
               me_uvs := me_uvs m; me_vgroups := me_vgroups m |}
  end.

Definition resize_apply_selected (hf : HostFloat) (s : vec3) (sc : Scene) : Scene :=
  map (fun o => if so_selected o
                then {| so_name := so_name o; so_selected := true;
                        so_data := scale_data hf s (so_data o) |}
                else o) sc.

Definition armature_obj (bones : list EditBone) : SceneObj :=
  {| so_name := "Armature"; so_selected := true; so_data := OArmature bones |}.

(** [import_skeleton]: [bpy.ops.object.add] deselects every object and
    adds the selected armature; the bones are built in edit mode;
    [mode_set(mode='OBJECT')] leaves edit mode; then the armature is scaled
    by (1, 1, -1) and the scale applied.  [skeldata] is the result of
    [BoneData.build_bones(data)].  An exception in the loop leaves the
    armature in edit mode, unscaled. *)
Definition import_skeleton_with (hf : HostFloat) (skeldata : list BoneData) (sc : Scene)
  : PyResult unit * Scene :=
  let sc1 := map deselect sc in
  match build_bones_loop_with hf skeldata [] with
  | (PRaise e, bones) => (PRaise e, sc1 ++ [armature_obj bones])
  | (POk _, bones) =>
      (POk tt, resize_apply_selected hf resize_value
                 (sc1 ++ [armature_obj (mode_set_object hf bones)]))
  end.

Definition import_skeleton (skeldata : list BoneData) (sc : Scene)
  : PyResult unit * Scene :=
  import_skeleton_with exact_host skeldata sc.

(** ** Groups and [do_import] *)

(** A [BlenderModel] group as [groups_from_gmdc] yields it. *)
Record BlenderModel := {
  bm_name : string;
  bm_vertices : list vec3;
  bm_faces : list (list nat);
  bm_normals : list vec3;
  bm_uvs : list (Q * Q);
  bm_bone_assign : list (list nat);
  bm_bone_weight : list (list Q)
}.

(** [for i, vert in enumerate(mesh.vertices): vert.normal = normals[i]];
    the flag is [false] when [normals[i]] raised [IndexError]. *)
Fixpoint set_normals (cur src : list vec3) : list vec3 * bool :=
  match cur with
  | [] => ([], true)
  | c :: cs =>
      match src with
      | [] => (c :: cs, false)
      | n :: ns => let (r, ok) := set_normals cs ns in (n :: r, ok)
      end
  end.

(** The UV loop: loop [k] of the mesh is the [k]-th entry of the
    concatenated faces, and gets [uvs[faces[i][j]]]. *)
Fixpoint set_uvs (cur : list (Q * Q)) (idxs : list nat) (uvs : list (Q * Q))
  : list (Q * Q) * bool :=
  match cur, idxs with
  | c :: cs, v :: vs =>
      match nth_error uvs v with
      | None => (c :: cs, false)
      | Some uv => let (r, ok) := set_uvs cs vs uvs in (uv :: r, ok)
      end
  | _, _ => (cur, true)
  end.

(** [vertgroup.add([i], weight, 'ADD')], as a call to the host. *)
Record AddCall := { ac_group : string; ac_vertex : nat; ac_weight : Q }.

(** The inner loop [for j in range(len(bone_assign[i]))], from position [j]
    on, with the running [remainder]: the calls made, and the exception
    that stopped the loop if any. *)
Fixpoint vertex_weight_calls (tbl vgnames : list string) (i : nat)
  (ba_i : list nat) (bw_i : list Q) (j : nat) (remainder : Q)
  : list AddCall * option PyExc :=
  match ba_i with
  | [] => ([], None)
  | b :: rest =>
      match nth_error tbl b with
      | None => ([], Some IndexError)
      | Some grpname =>
          if negb (existsb (String.eqb grpname) vgnames) then ([], Some KeyError)
          else if negb (Nat.eqb j 3) then
            match nth_error bw_i j with
            | None => ([], Some IndexError)
            | Some weight =>
                let (cs, e) := vertex_weight_calls tbl vgnames i rest bw_i (S j)
                                 (remainder - weight) in
                ({| ac_group := grpname; ac_vertex := i; ac_weight := weight |} :: cs, e)
            end
          else
            let (cs, e) := vertex_weight_calls tbl vgnames i rest bw_i (S j) remainder in
            ({| ac_group := grpname; ac_vertex := i; ac_weight := remainder |} :: cs, e)
      end
  end.

(** The outer loop [for i in range(len(bone_assign))], from vertex [i] on;
    [ba] is [bone_assign[i:]] and [bw] the whole [bone_weight]. *)
Fixpoint weight_calls (tbl vgnames : list string) (i : nat)
  (ba : list (list nat)) (bw : list (list Q)) : list AddCall * option PyExc :=
  match ba with
  | [] => ([], None)
  | ba_i :: rest =>
      match nth_error bw i with
      | None => ([], Some IndexError)
      | Some bw_i =>
          let (cs, e) := vertex_weight_calls tbl vgnames i ba_i bw_i 0 1 in
          match e with
          | Some _ => (cs, e)
          | None =>
              let (cs', e') := weight_calls tbl vgnames (S i) rest bw in
              (cs ++ cs', e')
          end
      end
  end.

(** The host's [ADD] mode on an existing entry: the sum, capped at 1.0. *)
Definition sat_add (x w : Q) : Q := if Qle_bool 1 (x + w) then 1 else x + w.

(** The host's [ADD] mode: a new entry takes the weight, an existing one is
    increased with [sat_add]. *)
Fixpoint add_weight (ws : list (nat * Q)) (v : nat) (w : Q) : list (nat * Q) :=
  match ws with
  | [] => [(v, w)]
  | (u, x) :: r =>
      if Nat.eqb u v
      then (u, sat_add x w) :: r
      else (u, x) :: add_weight r v w
  end.

(** The [weight] argument of [VertexGroup.add], clamped by the host to the
    range [0, 1] of the parameter. *)
Definition clamp01 (w : Q) : Q :=
  if Qle_bool 0 w then (if Qle_bool w 1 then w else 1) else 0.

(** [object.vertex_groups[name].add(...)]: the first group of that name. *)
Fixpoint vg_add (gs : list VGroup) (c : AddCall) : list VGroup :=
  match gs with
  | [] => []
  | g :: r =>
      if String.eqb (vg_name g) (ac_group c)
      then {| vg_name := vg_name g;
              vg_weights := add_weight (vg_weights g) (ac_vertex c)
                              (clamp01 (ac_weight c)) |} :: r
      else g :: vg_add r c
  end.

Definition apply_calls (gs : list VGroup) (cs : list AddCall) : list VGroup :=
  fold_left vg_add cs gs.

Definition mk_mesh (vs : list vec3) (fs : list (list nat)) (ns : list vec3)
  (uv : option (list (Q * Q))) (gs : list VGroup) : MeshData :=
  {| me_vertices := vs; me_faces := fs; me_normals := ns; me_uvs := uv;
     me_vgroups := gs |}.

(** Names [object.vertex_groups.new] keeps as given on a new object: not
    empty, at most 63 bytes, none repeated.  The editor calls a group with
    an empty name 'Group', cuts a longer name to 63 bytes and renames a
    repeated one. *)
Definition plain_names (tbl : list string) : Prop :=
  NoDup tbl /\ Forall (fun n => n <> EmptyString /\ (String.length n <= 63)%nat) tbl.

(** [plain_names] as a test. *)
Fixpoint nodupb (l : list string) : bool :=
  match l with
  | [] => true
  | x :: r => negb (existsb (String.eqb x) r) && nodupb r
  end.

Definition plain_namesb (tbl : list string) : bool :=
  nodupb tbl &&
  forallb (fun n => negb (String.eqb n EmptyString) && Nat.leb (String.length n) 63) tbl.

Lemma plain_namesb_spec tbl : plain_namesb tbl = true -> plain_names tbl.
Proof.
  unfold plain_namesb. intros H. apply andb_true_iff in H as [Hd Hf]. split.
  - clear Hf. induction tbl as [|x r IH]; [constructor|].
    cbn in Hd. apply andb_true_iff in Hd as [Hx Hr]. constructor; [|exact (IH Hr)].
    intros Hin. apply negb_true_iff in Hx.
    assert (existsb (String.eqb x) r = true) as Ht
      by (apply existsb_exists; exists x; split; [exact Hin|apply String.eqb_refl]).
    congruence.
  - apply Forall_forall. intros n Hn. rewrite forallb_forall in Hf.
    specialize (Hf n Hn). apply andb_true_iff in Hf as [He Hl]. split.
    + intros Hz. subst n. discriminate He.
    + apply Nat.leb_le. exact Hl.
Qed.

(** The vertex groups [object.vertex_groups.new(val[0])] creates: one per
    entry, empty, named by the entry; these are the editor's names when
    [plain_names tbl] holds. *)
Definition empty_groups (tbl : list string) : list VGroup :=
  map (fun n => {| vg_name := n; vg_weights := [] |}) tbl.

(** [bpy.data.objects.new(name, mesh)] linked with
    [bpy.context.scene.objects.link]: not selected. *)
Definition mesh_obj (name : string) (m : MeshData) : SceneObj :=
  {| so_name := name; so_selected := false; so_data := OMesh m |}.

Definition mismatch_msg (name : string) : string :=
  ("ERROR: Group " ++ name ++ "'s vertex index counts don't match.")%string.

Definition imported_msg (name : string) : string :=
  ("Group " ++ name ++ " imported." ++ String (ascii_of_nat 10) EmptyString)%string.

(** The check of lines 160-161. *)
Definition count_mismatch (m : BlenderModel) : bool :=
  negb (Nat.eqb (List.length (bm_vertices m)) (List.length (bm_bone_assign m))) ||
  negb (Nat.eqb (List.length (bm_vertices m)) (List.length (bm_bone_weight m))).

(** [do_import(b_model, armature)] with [BoneData.bone_parent_table] given
    by the names [tbl] of its entries ([val[0]]); the [armature] argument is
    not used by the source.  The new object is the last one of the scene.
    Normals not yet assigned are shown as [origin].  The debug [print]s and
    the coordinate comparison loop of lines 166-169 have no effect on the
    state and are left out. *)
Definition do_import (tbl : list string) (m : BlenderModel) (sc : Scene)
  : PyResult string * Scene :=
  let name := bm_name m in
  let verts := bm_vertices m in
  let faces := bm_faces m in
  let (normals, ok_n) := set_normals (map (fun _ => origin) verts) (bm_normals m) in
  let md1 := mk_mesh verts faces normals None [] in
  if negb ok_n then (PRaise IndexError, sc ++ [mesh_obj name md1]) else
  let (uvs, ok_u) :=
    set_uvs (repeat (0, 0) (List.length (List.concat faces))) (List.concat faces) (bm_uvs m) in
  let md2 := mk_mesh verts faces normals (Some uvs) [] in
  if negb ok_u then (PRaise IndexError, sc ++ [mesh_obj name md2]) else
  let groups := empty_groups tbl in
  let md3 := mk_mesh verts faces normals (Some uvs) groups in
  if count_mismatch m then (POk (mismatch_msg name), sc ++ [mesh_obj name md3]) else
  let (cs, e) := weight_calls tbl (map vg_name groups) 0
                   (bm_bone_assign m) (bm_bone_weight m) in
  let md4 := mk_mesh verts faces normals (Some uvs) (apply_calls groups cs) in
  match e with
  | Some ex => (PRaise ex, sc ++ [mesh_obj name md4])
  | None => (POk (imported_msg name), sc ++ [mesh_obj name md4])
  end.

(** ** [execute] *)

(** Printed lines: the unsupported-version message and the string that
    [do_import] returns for each group. *)
Inductive LogLine :=
| LUnsupported : N -> LogLine
| LLine : string -> LogLine.

(** [for model in b_models: print(self.do_import(model, armature))] *)
Fixpoint import_groups (tbl : list string) (ms : list BlenderModel) (sc : Scene)
  (log : list LogLine) : PyResult unit * Scene * list LogLine :=
  match ms with
  | [] => (POk tt, sc, log)
  | m :: rest =>
      match do_import tbl m sc with
      | (POk s, sc') => import_groups tbl rest sc' (log ++ [LLine s])
      | (PRaise e, sc') => (PRaise e, sc', log)
      end
  end.

(** The value of [groups_from_gmdc]: [False] or the list of groups. *)
Inductive Groups :=
| GFalse : Groups
| GModels : list BlenderModel -> Groups.

(** What the GMDC reader makes of a file: the header's [file_type], and
    what [BoneData.build_bones], [groups_from_gmdc] and
    [BoneData.bone_parent_table] give once [load_data] has run. *)
Record GmdcFile := {
  gf_file_type : N;
  gf_skeleton : list BoneData;
  gf_groups : Groups;
  gf_bone_parent_table : list string
}.

(** Modelled from the spec: [GMDC.load_header] (module [rcol.gmdc], not in
    the sources) is false exactly when the header tag is not one of the
    supported signatures [sigs]. *)
Definition load_header (sigs : list N) (file_type : N) : bool :=
  existsb (N.eqb file_type) sigs.

(** The state [execute] acts on: the printed lines, the scene, and whether
    the chunk data was loaded ([load_data]) and the groups assembled
    ([groups_from_gmdc]). *)
Record World := {
  w_log : list LogLine;
  w_scene : Scene;
  w_data_loaded : bool;
  w_groups_assembled : bool
}.

Inductive ExecResult :=
| RFalse : ExecResult
| RFinished : ExecResult
| RRaise : PyExc -> ExecResult.

Definition execute (sigs : list N) (f : GmdcFile) (w : World) : ExecResult * World :=
  if negb (load_header sigs (gf_file_type f)) then
    (RFalse, {| w_log := w_log w ++ [LUnsupported (gf_file_type f)];
                w_scene := w_scene w; w_data_loaded := w_data_loaded w;
                w_groups_assembled := w_groups_assembled w |})
  else
    match import_skeleton (gf_skeleton f) (w_scene w) with
    | (PRaise e, sc) =>
        (RRaise e, {| w_log := w_log w; w_scene := sc; w_data_loaded := true;
                      w_groups_assembled := true |})
    | (POk _, sc) =>
        match gf_groups f with
        | GFalse =>
            (RFinished, {| w_log := w_log w; w_scene := sc; w_data_loaded := true;
                           w_groups_assembled := true |})
        | GModels ms =>
            match import_groups (gf_bone_parent_table f) ms sc (w_log w) with
            | (r, sc', log') =>
                (match r with POk _ => RFinished | PRaise e => RRaise e end,
                 {| w_log := log'; w_scene := sc'; w_data_loaded := true;
                    w_groups_assembled := true |})
            end
        end
    end.

(** * Properties *)

(** ** Skeleton *)

Definition vec_eq (a b : vec3) : Prop :=
  vx a == vx b /\ vy a == vy b /\ vz a == vz b.

Lemma vec_eqb_eq a b : vec_eqb a b = true <-> vec_eq a b.
Proof.
  unfold vec_eqb, vec_eq. rewrite !andb_true_iff, !Qeq_bool_iff. tauto.
Qed.

(** The head a bone receives in the loop, given the bones [prefix] built
    before it and its own tail [t]: the origin for a root, else the tail of
    its parent, or [t] when the bone names itself. *)
Definition expected_head (prefix : list EditBone) (bd : BoneData) (t : vec3) : vec3 :=
  match bd_parent bd with
  | None => origin
  | Some p =>
      match nth_error prefix p with
      | Some pb => eb_tail pb
      | None => t
      end
  end.

Definition bone_shape (hf : HostFloat) (prefix : list EditBone) (bd : BoneData)
  (b : EditBone) : Prop :=
  let t := hf_rotate hf (bd_rotation bd) (bd_position bd) in
  let h := expected_head prefix bd t in
  eb_name b = bd_name bd /\ eb_head b = h /\
  eb_tail b = (if hf_eq hf t h then hf_add hf t zero_len_fix else t) /\
  eb_props b = bone_props bd.

Lemma nth_error_snoc {A} (l : list A) x p y :
  nth_error (l ++ [x]) p = Some y ->
  nth_error l p = Some y \/ (nth_error l p = None /\ y = x).
Proof.
  intros H. destruct (Nat.lt_ge_cases p (List.length l)) as [Hl | Hl].
  - left. rewrite nth_error_app1 in H by exact Hl. exact H.
  - right. rewrite nth_error_app2 in H by exact Hl.
    split; [apply nth_error_None; exact Hl|].
    destruct (p - List.length l)%nat as [|n]; simpl in H.
    + congruence.
    + destruct n; discriminate.
Qed.

Lemma build_bone_ok hf bones bd bones' :
  build_bone_with hf bones bd = (POk tt, bones') ->
  exists b, bones' = bones ++ [b] /\ bone_shape hf bones bd b.
Proof.
  unfold build_bone_with, bone_shape, expected_head.
  set (t := hf_rotate hf (bd_rotation bd) (bd_position bd)).
  destruct (bd_parent bd) as [p|] eqn:Hp.
  - destruct (nth_error _ p) as [pb|] eqn:Hn; [|discriminate].
    assert (Hh : eb_tail pb = match nth_error bones p with
                              | Some pb => eb_tail pb | None => t end).
    { apply nth_error_snoc in Hn as [Hn | [Hn ->]]; rewrite Hn; reflexivity. }
    intros H; injection H as <-. eexists; split; [reflexivity|].
    rewrite <- Hh. simpl.
    destruct (hf_eq hf t (eb_tail pb)); simpl; repeat split.
  - intros H; injection H as <-. eexists; split; [reflexivity|].
    simpl. destruct (hf_eq hf t origin); simpl; repeat split.
Qed.

Lemma build_bones_loop_ok hf skel : forall bones0 bones,
  build_bones_loop_with hf skel bones0 = (POk tt, bones) ->
  List.length bones = (List.length bones0 + List.length skel)%nat /\
  firstn (List.length bones0) bones = bones0 /\
  forall k bd, nth_error skel k = Some bd ->
    exists b, nth_error bones (List.length bones0 + k)%nat = Some b /\
              bone_shape hf (firstn (List.length bones0 + k)%nat bones) bd b.
Proof.
  induction skel as [|bd rest IH]; intros bones0 bones H; simpl in H.
  - injection H as <-. split; [simpl; lia|]. split; [apply firstn_all|].
    intros k bd Hk. destruct k; discriminate.
  - destruct (build_bone_with hf bones0 bd) as [[[]|e] bs] eqn:Hb; [|discriminate].
    apply build_bone_ok in Hb as [b [-> Hsh]].
    destruct (IH _ _ H) as [Hlen [Hpre Hall]].
    rewrite length_app in Hlen, Hpre, Hall. simpl in Hlen, Hpre, Hall.
    assert (Hpre0 : firstn (List.length bones0) bones = bones0).
    { replace (firstn (List.length bones0) bones) with
        (firstn (List.length bones0) (firstn (List.length bones0 + 1)%nat bones)).
      2:{ rewrite firstn_firstn. f_equal. lia. }
      rewrite Hpre, firstn_app, Nat.sub_diag, firstn_all. simpl. apply app_nil_r. }
    split; [simpl; lia|]. split; [exact Hpre0|].
    intros [|k] bd' Hk; simpl in Hk.
    + injection Hk as <-. exists b. rewrite Nat.add_0_r, Hpre0. split; [|exact Hsh].
      rewrite <- (firstn_skipn (List.length bones0 + 1)%nat bones), Hpre.
      rewrite <- app_assoc, nth_error_app2 by lia. rewrite Nat.sub_diag. reflexivity.
    + destruct (Hall k bd' Hk) as [b' [Hb' Hs']].
      exists b'. replace (List.length bones0 + S k)%nat with (List.length bones0 + 1 + k)%nat by lia.
      split; assumption.
Qed.

Lemma resize_apply_app hf s l1 l2 :
  resize_apply_selected hf s (l1 ++ l2) =
  resize_apply_selected hf s l1 ++ resize_apply_selected hf s l2.
Proof. unfold resize_apply_selected. apply map_app. Qed.

Lemma resize_apply_deselected hf s sc :
  resize_apply_selected hf s (map deselect sc) = map deselect sc.
Proof. induction sc as [|o r IH]; simpl; [reflexivity|]. f_equal. exact IH. Qed.

Lemma import_skeleton_ok hf skel sc u sc' :
  import_skeleton_with hf skel sc = (POk u, sc') ->
  exists bones, build_bones_loop_with hf skel [] = (POk tt, bones) /\
    sc' = map deselect sc ++
            [armature_obj (mode_set_object hf
               (map (scale_bone resize_value) (mode_set_object hf bones)))].
Proof.
  unfold import_skeleton_with.
  destruct (build_bones_loop_with hf skel []) as [[[]|e] bones] eqn:Hb; intro H;
    [|discriminate].
  injection H as _ <-. exists bones. split; [reflexivity|].
  rewrite resize_apply_app, resize_apply_deselected. reflexivity.
Qed.

(** *** Freeing zero-sized bones *)

(** What leaving edit mode keeps of a bone: all but its parent. *)
Definition bone_geom (b : EditBone) : string * vec3 * vec3 * list (string * Q) :=
  (eb_name b, eb_head b, eb_tail b, eb_props b).

Definition kept (hf : HostFloat) (b : EditBone) : bool :=
  negb (hf_short hf (eb_head b) (eb_tail b)).

Lemma reparent_geom k np l :
  map (fun ib => bone_geom (snd ib)) (reparent k np l) =
  map (fun ib => bone_geom (snd ib)) l.
Proof.
  unfold reparent. rewrite map_map. apply map_ext. intros [i f]. simpl.
  destruct (eb_parent f) as [p|]; [destruct (Nat.eqb p k)|]; reflexivity.
Qed.

Lemma kept_geom hf b1 b2 : bone_geom b1 = bone_geom b2 -> kept hf b1 = kept hf b2.
Proof.
  unfold bone_geom, kept. intros H. injection H as _ Hh Ht _. rewrite Hh, Ht. reflexivity.
Qed.

Lemma filter_kept_geom hf l1 : forall l2,
  map bone_geom l1 = map bone_geom l2 ->
  map bone_geom (filter (kept hf) l1) = map bone_geom (filter (kept hf) l2).
Proof.
  induction l1 as [|b1 r1 IH]; intros [|b2 r2] H; cbn [map] in H; try discriminate;
    [reflexivity|].
  injection H as Hn Hh Ht Hp Hr.
  assert (Hb : bone_geom b1 = bone_geom b2) by (unfold bone_geom; congruence).
  cbn [filter]. rewrite (kept_geom hf b1 b2 Hb).
  destruct (kept hf b2); cbn [map]; [rewrite Hb, (IH r2 Hr); reflexivity|apply IH; exact Hr].
Qed.

Lemma free_short_geom hf fuel : forall done todo,
  (List.length todo <= fuel)%nat ->
  map (fun ib => bone_geom (snd ib)) (free_short hf fuel done todo) =
  map (fun ib => bone_geom (snd ib)) done ++ map bone_geom (filter (kept hf) (map snd todo)).
Proof.
  induction fuel as [|fuel IH]; intros done todo Hlen.
  - destruct todo as [|ib rest]; [|cbn [List.length] in Hlen; lia].
    cbn [free_short map filter]. rewrite app_nil_r. reflexivity.
  - destruct todo as [|[k e] rest].
    { cbn [free_short map filter]. rewrite app_nil_r. reflexivity. }
    cbn [List.length] in Hlen. cbn [free_short map snd].
    change (filter (kept hf) (e :: map snd rest)) with
      (if kept hf e then e :: filter (kept hf) (map snd rest)
       else filter (kept hf) (map snd rest)).
    unfold kept at 1. destruct (hf_short hf (eb_head e) (eb_tail e)); cbn [negb map].
    + rewrite IH by (unfold reparent; rewrite length_map; lia).
      rewrite reparent_geom. f_equal. apply filter_kept_geom.
      rewrite !map_map. apply reparent_geom.
    + rewrite IH by lia. rewrite map_app, <- app_assoc. reflexivity.
Qed.

Lemma combine_seq_snd (bs : list EditBone) : forall s, map snd (combine (seq s (List.length bs)) bs) = bs.
Proof. induction bs as [|b r IH]; intros s; simpl; [reflexivity|]. f_equal. apply IH. Qed.

Lemma combine_seq_fst (bs : list EditBone) : forall s,
  map fst (combine (seq s (List.length bs)) bs) = seq s (List.length bs).
Proof. induction bs as [|b r IH]; intros s; simpl; [reflexivity|]. f_equal. apply IH. Qed.

Lemma combine_seq_length (bs : list EditBone) s : List.length (combine (seq s (List.length bs)) bs) = List.length bs.
Proof. rewrite <- (length_map (@snd nat EditBone)), combine_seq_snd. reflexivity. Qed.

Lemma renumber_geom l :
  map bone_geom (renumber l) = map (fun ib => bone_geom (snd ib)) l.
Proof. unfold renumber. rewrite map_map. reflexivity. Qed.

(** Leaving edit mode keeps, in order, exactly the bones that are not
    zero-sized, with their names, heads, tails and properties. *)
Lemma mode_set_geom hf bs :
  map bone_geom (mode_set_object hf bs) = map bone_geom (filter (kept hf) bs).
Proof.
  unfold mode_set_object. rewrite renumber_geom.
  rewrite free_short_geom by (rewrite combine_seq_length; lia).
  simpl. rewrite combine_seq_snd. reflexivity.
Qed.

Lemma mode_set_kept hf bs :
  Forall (fun b => hf_short hf (eb_head b) (eb_tail b) = false) (mode_set_object hf bs).
Proof.
  apply Forall_forall. intros b Hin.
  assert (Hg : In (bone_geom b) (map bone_geom (filter (kept hf) bs)))
    by (rewrite <- mode_set_geom; apply in_map; exact Hin).
  apply in_map_iff in Hg as [b0 [Hg Hin0]]. apply filter_In in Hin0 as [_ Hk].
  rewrite (kept_geom hf b0 b Hg) in Hk. unfold kept in Hk.
  apply negb_true_iff in Hk. exact Hk.
Qed.

Lemma free_short_none hf fuel : forall done todo,
  (List.length todo <= fuel)%nat ->
  Forall (fun ib => hf_short hf (eb_head (snd ib)) (eb_tail (snd ib)) = false) todo ->
  free_short hf fuel done todo = done ++ todo.
Proof.
  induction fuel as [|fuel IH]; intros done todo Hlen Hall.
  - destruct todo as [|ib rest]; [|cbn [List.length] in Hlen; lia].
    cbn [free_short]. rewrite app_nil_r. reflexivity.
  - destruct todo as [|[k e] rest].
    { cbn [free_short]. rewrite app_nil_r. reflexivity. }
    cbn [List.length] in Hlen. cbn [free_short].
    inversion Hall as [|? ? He Hr]; subst. cbn [snd] in He. rewrite He.
    rewrite IH by (lia || exact Hr). rewrite <- app_assoc. reflexivity.
Qed.

Lemma index_of_seq n : forall s p,
  (s <= p < s + n)%nat -> index_of p (seq s n) = Some (p - s)%nat.
Proof.
  induction n as [|n IH]; intros s p H; [lia|]. simpl.
  destruct (Nat.eqb s p) eqn:E.
  - apply Nat.eqb_eq in E. subst. rewrite Nat.sub_diag. reflexivity.
  - apply Nat.eqb_neq in E. rewrite IH by lia. simpl. f_equal. lia.
Qed.

Lemma index_of_lt i ids : forall j, index_of i ids = Some j -> (j < List.length ids)%nat.
Proof.
  induction ids as [|a r IH]; simpl; intros j H; [discriminate|].
  destruct (Nat.eqb a i); [injection H as <-; lia|].
  destruct (index_of i r) as [n|] eqn:E; simpl in H; [|discriminate].
  injection H as <-. specialize (IH n eq_refl). lia.
Qed.

(** Every parent reference names a bone of the list. *)
Definition parents_below (bs : list EditBone) : Prop :=
  Forall (fun b => forall p, eb_parent b = Some p -> (p < List.length bs)%nat) bs.

Lemma mode_set_parents hf bs : parents_below (mode_set_object hf bs).
Proof.
  unfold parents_below, mode_set_object, renumber. apply Forall_forall.
  intros b Hin p Hp. rewrite length_map.
  apply in_map_iff in Hin as [[i f] [<- _]]. simpl in Hp.
  destruct (eb_parent f); [|discriminate].
  apply index_of_lt in Hp. rewrite length_map in Hp. exact Hp.
Qed.

Lemma with_parent_same b : with_parent b (eb_parent b) = b.
Proof. destruct b; reflexivity. Qed.

(** Leaving edit mode changes nothing when no bone is zero-sized. *)
Lemma mode_set_id hf bs :
  Forall (fun b => hf_short hf (eb_head b) (eb_tail b) = false) bs ->
  parents_below bs -> mode_set_object hf bs = bs.
Proof.
  intros Hk Hp. unfold mode_set_object.
  rewrite free_short_none.
  - simpl. unfold renumber. rewrite combine_seq_fst.
    transitivity (map (fun b => with_parent b
                          match eb_parent b with
                          | Some p => index_of p (seq 0 (List.length bs))
                          | None => None
                          end)
                    (map snd (combine (seq 0 (List.length bs)) bs))).
    { rewrite map_map. reflexivity. }
    rewrite combine_seq_snd. transitivity (map (fun b => b) bs); [|apply map_id].
    apply map_ext_in. intros b Hin.
    unfold parents_below in Hp. rewrite Forall_forall in Hp. specialize (Hp b Hin).
    destruct (eb_parent b) as [p|] eqn:E.
    + rewrite index_of_seq by (specialize (Hp p eq_refl); lia).
      rewrite Nat.sub_0_r, <- E. apply with_parent_same.
    + rewrite <- E. apply with_parent_same.
  - rewrite combine_seq_length. lia.
  - rewrite Forall_forall in *. intros [i b] Hin. simpl. apply Hk.
    apply (in_map snd) in Hin. rewrite combine_seq_snd in Hin. exact Hin.
Qed.

(** Under a test that does not see the mirror, the second pass (when the
    scale is applied) frees nothing. *)
Lemma mirror_pass_id hf bs :
  (forall h t, hf_short hf (scale_vec resize_value h) (scale_vec resize_value t) =
               hf_short hf h t) ->
  mode_set_object hf (map (scale_bone resize_value) (mode_set_object hf bs)) =
  map (scale_bone resize_value) (mode_set_object hf bs).
Proof.
  intros Hinv. apply mode_set_id.
  - apply Forall_map. eapply Forall_impl; [|apply mode_set_kept].
    intros b Hb. simpl. rewrite Hinv. exact Hb.
  - unfold parents_below. rewrite length_map. apply Forall_map.
    exact (mode_set_parents hf bs).
Qed.

(** *** Samples *)

(** Sample bones: a root one unit along X, a child one unit along Y, and a
    root bone of length 2^-17 (about 0.0000076; a float, and so are all
    the values the host computes for it). *)
Definition rot_identity : quat := Qt 1 0 0 0.

Definition ex_root : BoneData :=
  {| bd_name := "root"; bd_position := V3 1 0 0; bd_rotation := rot_identity;
     bd_parent := None |}.

Definition ex_child : BoneData :=
  {| bd_name := "child"; bd_position := V3 0 1 0; bd_rotation := rot_identity;
     bd_parent := Some 0%nat |}.

Definition ex_short : BoneData :=
  {| bd_name := "short"; bd_position := V3 (1 # 131072) 0 0;
     bd_rotation := rot_identity; bd_parent := None |}.

(** A child one unit along X from a root one unit along X: zero length. *)
Definition ex_zero : BoneData :=
  {| bd_name := "zero"; bd_position := V3 1 0 0; bd_rotation := rot_identity;
     bd_parent := Some 0%nat |}.

(** *** Claims *)

(** C2 (as stated): a child bone's tail is not its parent's tail plus its
    rotated translation: the child of [ex_root] gets tail (0,1,0), not
    (1,1,0).  (Identity rotations and small integers: the host's float
    operations are exact here.) *)
Lemma C2_counterexample : exists root child,
  import_skeleton [ex_root; ex_child] [] = (POk tt, [armature_obj [root; child]]) /\
  bd_parent ex_child = Some 0%nat /\
  vec_eqb (eb_tail child)
    (vadd (eb_tail root) (qrotate (bd_rotation ex_child) (bd_position ex_child))) = false.
Proof.
  do 2 eexists. split; [vm_compute; reflexivity|]. split; [reflexivity|].
  vm_compute. reflexivity.
Qed.

(** C2 (amended): in the bone loop each bone's tail is its own rotation
    applied to its own translation, with no parent term (moved by
    (0, 0.00001, 0) when the host compares it equal to the head); a bone
    with a parent gets its head at the parent's tail, a bone without one
    keeps its head at the origin.  Leaving edit mode keeps exactly the
    bones that are not zero-sized, unchanged but for their parents; the
    armature then holds these mirrored by the (1, 1, -1) scale, after
    which the zero-sized bones are freed once more.  For any float
    operations of the host. *)
Theorem C2_bone_tail_head : forall hf skel sc u sc',
  import_skeleton_with hf skel sc = (POk u, sc') ->
  exists bones,
    build_bones_loop_with hf skel [] = (POk tt, bones) /\
    sc' = map deselect sc ++
            [armature_obj (mode_set_object hf
               (map (scale_bone resize_value) (mode_set_object hf bones)))] /\
    map bone_geom (mode_set_object hf bones) = map bone_geom (filter (kept hf) bones) /\
    forall k bd, nth_error skel k = Some bd ->
      exists b, nth_error bones k = Some b /\
        let t := hf_rotate hf (bd_rotation bd) (bd_position bd) in
        eb_head b = expected_head (firstn k bones) bd t /\
        eb_tail b = (if hf_eq hf t (eb_head b) then hf_add hf t zero_len_fix else t).
Proof.
  intros hf skel sc u sc' H.
  destruct (import_skeleton_ok _ _ _ _ _ H) as [bones [Hb ->]].
  exists bones. split; [exact Hb|]. split; [reflexivity|]. split; [apply mode_set_geom|].
  destruct (build_bones_loop_ok _ _ _ _ Hb) as [_ [_ Hall]].
  intros k bd Hk. destruct (Hall k bd Hk) as [b [Hnth [_ [Hh [Ht _]]]]].
  exists b. split; [exact Hnth|]. simpl. rewrite Hh. split; [reflexivity|exact Ht].
Qed.

Lemma C2_witness :
  import_skeleton_with exact_host [ex_root; ex_child] [] =
    (POk tt, snd (import_skeleton [ex_root; ex_child] [])) /\
  exists bones,
    snd (import_skeleton [ex_root; ex_child] []) =
      [armature_obj (mode_set_object exact_host
         (map (scale_bone resize_value) (mode_set_object exact_host bones)))].
Proof.
  assert (H : import_skeleton_with exact_host [ex_root; ex_child] [] =
                (POk tt, snd (import_skeleton [ex_root; ex_child] [])))
    by (vm_compute; reflexivity).
  split; [exact H|].
  destruct (C2_bone_tail_head exact_host [ex_root; ex_child] [] tt _ H)
    as [bones [_ [Hsc _]]].
  exists bones. exact Hsc.
Defined.

(** C6 (as stated): a bone of nonzero length below the epsilon is left as
    it is and kept by the editor (it is longer than 0.000001), so not
    every bone ends at least 0.00001 long.  (The bone is 2^-17 along X
    with the identity rotation: every float operation is exact on it.) *)
Lemma C6_counterexample : exists b,
  import_skeleton [ex_short] [] = (POk tt, [armature_obj [b]]) /\
  dist2 (eb_head b) (eb_tail b) < zero_len_eps * zero_len_eps.
Proof.
  eexists. split; [vm_compute; reflexivity|]. vm_compute. reflexivity.
Qed.

(** C6 (amended): a bone whose tail the host compares equal to its head
    gets (0, 0.00001, 0) added to its tail (a float addition); a bone the
    host does not find equal keeps its tail, however short.  Leaving edit
    mode frees every zero-sized bone (no longer than 0.000001 in the
    host's test) and keeps the others unchanged but for their parents, and
    applying the scale frees them again: every bone of the finished
    armature passes the test.  For any float operations of the host. *)
Theorem C6_zero_length_fix : forall hf skel sc u sc',
  import_skeleton_with hf skel sc = (POk u, sc') ->
  exists bones,
    build_bones_loop_with hf skel [] = (POk tt, bones) /\
    sc' = map deselect sc ++
            [armature_obj (mode_set_object hf
               (map (scale_bone resize_value) (mode_set_object hf bones)))] /\
    (forall k bd, nth_error skel k = Some bd ->
      exists b, nth_error bones k = Some b /\
        let t := hf_rotate hf (bd_rotation bd) (bd_position bd) in
        (hf_eq hf t (eb_head b) = true -> eb_tail b = hf_add hf t zero_len_fix) /\
        (hf_eq hf t (eb_head b) = false -> eb_tail b = t)) /\
    map bone_geom (mode_set_object hf bones) = map bone_geom (filter (kept hf) bones) /\
    Forall (fun b => hf_short hf (eb_head b) (eb_tail b) = false)
      (mode_set_object hf (map (scale_bone resize_value) (mode_set_object hf bones))).
Proof.
  intros hf skel sc u sc' H.
  destruct (import_skeleton_ok _ _ _ _ _ H) as [bones [Hb ->]].
  exists bones. split; [exact Hb|]. split; [reflexivity|].
  split; [|split; [apply mode_set_geom|apply mode_set_kept]].
  destruct (build_bones_loop_ok _ _ _ _ Hb) as [_ [_ Hall]].
  intros k bd Hk. destruct (Hall k bd Hk) as [b [Hnth [_ [Hh [Ht _]]]]].
  exists b. split; [exact Hnth|]. simpl. rewrite <- Hh in Ht. split.
  - intros Heq. rewrite Heq in Ht. exact Ht.
  - intros Hne. rewrite Hne in Ht. exact Ht.
Qed.

Lemma C6_witness :
  import_skeleton_with exact_host [ex_root; ex_zero] [] =
    (POk tt, snd (import_skeleton [ex_root; ex_zero] [])) /\
  exists b, nth_error (snd (build_bones_loop [ex_root; ex_zero] [])) 1 = Some b /\
    eb_tail b = vadd (qrotate rot_identity (V3 1 0 0)) zero_len_fix.
Proof.
  assert (H : import_skeleton_with exact_host [ex_root; ex_zero] [] =
                (POk tt, snd (import_skeleton [ex_root; ex_zero] [])))
    by (vm_compute; reflexivity).
  split; [exact H|].
  destruct (C6_zero_length_fix exact_host [ex_root; ex_zero] [] tt _ H)
    as [bones [Hb [_ [Hall _]]]].
  destruct (Hall 1%nat ex_zero eq_refl) as [b [Hnth [Hzero _]]].
  assert (Hbones : bones = snd (build_bones_loop [ex_root; ex_zero] []))
    by (unfold build_bones_loop; rewrite Hb; reflexivity).
  exists b. rewrite <- Hbones. split; [exact Hnth|].
  apply Hzero. rewrite Hbones in Hnth. vm_compute in Hnth. injection Hnth as <-.
  vm_compute. reflexivity.
Defined.

(** C7: after the bone loop and the switch to object mode, one (1, 1, -1)
    scale is applied to the armature as a whole: it negates Z and keeps X
    and Y, it leaves each bone's name, parent and stored
    translation/rotation values as they were, and the other objects of the
    scene (deselected when the armature was added) keep their data.  The
    bones it applies to are those leaving edit mode keeps; applying the
    scale runs the same freeing of zero-sized bones, which frees nothing
    more when the host's test does not see the mirror.  For any float
    operations of the host. *)
Theorem C7_single_mirror : forall hf skel sc u sc',
  import_skeleton_with hf skel sc = (POk u, sc') ->
  exists bones,
    build_bones_loop_with hf skel [] = (POk tt, bones) /\
    sc' = map deselect sc ++
            [armature_obj (mode_set_object hf
               (map (scale_bone resize_value) (mode_set_object hf bones)))] /\
    map so_data (map deselect sc) = map so_data sc /\
    (forall v, vec_eq (scale_vec resize_value v) (V3 (vx v) (vy v) (- vz v))) /\
    (forall b, eb_name (scale_bone resize_value b) = eb_name b /\
               eb_parent (scale_bone resize_value b) = eb_parent b /\
               eb_props (scale_bone resize_value b) = eb_props b) /\
    (forall k bd b, nth_error skel k = Some bd -> nth_error bones k = Some b ->
       eb_props b = bone_props bd) /\
    map bone_geom (mode_set_object hf bones) = map bone_geom (filter (kept hf) bones) /\
    ((forall h t, hf_short hf (scale_vec resize_value h) (scale_vec resize_value t) =
                  hf_short hf h t) ->
     mode_set_object hf (map (scale_bone resize_value) (mode_set_object hf bones)) =
     map (scale_bone resize_value) (mode_set_object hf bones)).
Proof.
  intros hf skel sc u sc' H.
  destruct (import_skeleton_ok _ _ _ _ _ H) as [bones [Hb ->]].
  exists bones. split; [exact Hb|]. split; [reflexivity|]. split.
  { rewrite map_map. reflexivity. }
  split.
  { intros v. unfold vec_eq, scale_vec, resize_value. simpl. repeat split; ring. }
  split; [intros b; repeat split|].
  split; [|split; [apply mode_set_geom|apply mirror_pass_id]].
  intros k bd b Hk Hbk.
  destruct (build_bones_loop_ok _ _ _ _ Hb) as [_ [_ Hall]].
  destruct (Hall k bd Hk) as [b' [Hnth [_ [_ [_ Hp]]]]].
  simpl in Hnth. rewrite Hbk in Hnth. injection Hnth as <-. exact Hp.
Qed.

Lemma C7_witness :
  import_skeleton_with exact_host [ex_root; ex_child] [] =
    (POk tt, snd (import_skeleton [ex_root; ex_child] [])) /\
  exists bones, build_bones_loop [ex_root; ex_child] [] = (POk tt, bones).
Proof.
  assert (H : import_skeleton_with exact_host [ex_root; ex_child] [] =
                (POk tt, snd (import_skeleton [ex_root; ex_child] [])))
    by (vm_compute; reflexivity).
  split; [exact H|].
  destruct (C7_single_mirror exact_host [ex_root; ex_child] [] tt _ H) as [bones [Hb _]].
  exists bones. exact Hb.
Defined.

(** ** Weight loop *)

Ltac split_matches H :=
  repeat match type of H with
  | context [match ?x with _ => _ end] => let E := fresh "E" in destruct x eqn:E
  end.

Section VertexLoop.
Variables (tbl vgnames : list string) (i : nat).

Lemma vwc_length ba_i bw_i : forall j rem cs e,
  vertex_weight_calls tbl vgnames i ba_i bw_i j rem = (cs, e) ->
  (List.length cs <= List.length ba_i)%nat.
Proof.
  induction ba_i as [|b rest IH]; intros j rem cs e H; simpl in H;
    split_matches H; injection H as <- _; simpl; try lia;
    match goal with E : vertex_weight_calls _ _ _ _ _ _ _ = _ |- _ =>
      apply IH in E; lia end.
Qed.

Lemma vwc_calls ba_i bw_i : forall j rem cs e,
  vertex_weight_calls tbl vgnames i ba_i bw_i j rem = (cs, e) ->
  forall k c, nth_error cs k = Some c ->
    ac_vertex c = i /\
    (exists b, nth_error ba_i k = Some b /\ nth_error tbl b = Some (ac_group c)) /\
    ((j + k <> 3)%nat -> nth_error bw_i (j + k)%nat = Some (ac_weight c)).
Proof.
  induction ba_i as [|b rest IH]; intros j rem cs e H k c Hk; simpl in H;
    split_matches H; injection H as <- _;
    try (destruct k; discriminate).
  - destruct k as [|k]; simpl in Hk.
    + injection Hk as <-. simpl. split; [reflexivity|]. split; [eauto|].
      rewrite Nat.add_0_r. intros _. assumption.
    + match goal with E : vertex_weight_calls _ _ _ _ _ _ _ = _ |- _ =>
        destruct (IH _ _ _ _ E k c Hk) as [Hv [Hg Hw]] end.
      split; [exact Hv|]. split; [exact Hg|].
      replace (j + S k)%nat with (S j + k)%nat by lia. exact Hw.
  - match goal with E : negb (Nat.eqb j 3) = false |- _ =>
      apply negb_false_iff, Nat.eqb_eq in E end. subst j.
    destruct k as [|k]; simpl in Hk.
    + injection Hk as <-. simpl. split; [reflexivity|]. split; [eauto|].
      intros Hn; lia.
    + match goal with E : vertex_weight_calls _ _ _ _ _ _ _ = _ |- _ =>
        destruct (IH _ _ _ _ E k c Hk) as [Hv [Hg Hw]] end.
      split; [exact Hv|]. split; [exact Hg|].
      replace (3 + S k)%nat with (4 + k)%nat by lia. exact Hw.
Qed.

Lemma vwc_reads_first_three ba_i bw_i bw' : forall j rem,
  (j + List.length ba_i <= 4)%nat ->
  (forall m, (m < 3)%nat -> nth_error bw' m = nth_error bw_i m) ->
  vertex_weight_calls tbl vgnames i ba_i bw' j rem =
  vertex_weight_calls tbl vgnames i ba_i bw_i j rem.
Proof.
  induction ba_i as [|b rest IH]; intros j rem Hlen Hbw; simpl; [reflexivity|].
  simpl in Hlen.
  destruct (nth_error tbl b); [|reflexivity].
  destruct (negb _); [reflexivity|].
  destruct (Nat.eqb j 3) eqn:Hj; simpl.
  - rewrite IH by (lia || assumption). reflexivity.
  - apply Nat.eqb_neq in Hj. rewrite Hbw by lia.
    destruct (nth_error bw_i j); [|reflexivity].
    rewrite IH by (lia || assumption). reflexivity.
Qed.

Lemma vwc_remainder ba_i bw_i : forall j rem cs e c,
  vertex_weight_calls tbl vgnames i ba_i bw_i j rem = (cs, e) ->
  (j <= 3)%nat -> nth_error cs (3 - j)%nat = Some c ->
  exists ws, List.length ws = (3 - j)%nat /\
    (forall m w, nth_error ws m = Some w -> nth_error bw_i (j + m)%nat = Some w) /\
    ac_weight c = fold_left Qminus ws rem.
Proof.
  induction ba_i as [|b rest IH]; intros j rem cs e c H Hj Hc; simpl in H;
    split_matches H; injection H as <- _; try (destruct (3 - j)%nat; discriminate).
  - (* explicit weight at position j < 3 *)
    match goal with E : negb (Nat.eqb j 3) = true |- _ =>
      apply negb_true_iff, Nat.eqb_neq in E end.
    match goal with E : nth_error bw_i j = Some ?w |- _ => rename w into w0; rename E into Hw0 end.
    replace (3 - j)%nat with (S (3 - S j))%nat in Hc by lia. cbn [nth_error] in Hc.
    match goal with E : vertex_weight_calls _ _ _ _ _ _ _ = _ |- _ =>
      assert (Hle : (S j <= 3)%nat) by lia;
      destruct (IH _ _ _ _ c E Hle Hc) as [ws [Hlen [Hws Hc']]] end.
    exists (w0 :: ws). split; [cbn [List.length]; lia|]. split.
    + intros [|m] w Hm; simpl in Hm.
      * injection Hm as <-. rewrite Nat.add_0_r. exact Hw0.
      * replace (j + S m)%nat with (S j + m)%nat by lia. apply Hws, Hm.
    + exact Hc'.
  - (* the implied weight at position 3 *)
    match goal with E : negb (Nat.eqb j 3) = false |- _ =>
      apply negb_false_iff, Nat.eqb_eq in E end. subst j.
    simpl in Hc. injection Hc as <-. exists []. simpl.
    split; [reflexivity|]. split; [intros [|m] w Hm; discriminate|reflexivity].
Qed.

Lemma vwc_fourth ba_i bw_i cs e c :
  vertex_weight_calls tbl vgnames i ba_i bw_i 0 1 = (cs, e) ->
  nth_error cs 3 = Some c ->
  exists b3 w0 w1 w2,
    nth_error ba_i 3 = Some b3 /\ nth_error tbl b3 = Some (ac_group c) /\
    ac_vertex c = i /\
    firstn 3 bw_i = [w0; w1; w2] /\
    ac_weight c = 1 - w0 - w1 - w2.
Proof.
  intros H Hc.
  destruct (vwc_calls _ _ _ _ _ _ H 3 c Hc) as [Hv [[b3 [Hb3 Hg]] _]].
  assert (H3 : (0 <= 3)%nat) by lia.
  destruct (vwc_remainder ba_i bw_i 0 1 cs e c H H3 Hc) as [ws [Hlen [Hws Hw]]].
  destruct ws as [|w0 [|w1 [|w2 [|w3 ws]]]]; simpl in Hlen; try discriminate.
  exists b3, w0, w1, w2. split; [exact Hb3|]. split; [exact Hg|]. split; [exact Hv|].
  split; [|exact Hw].
  pose proof (Hws 0%nat w0 eq_refl) as H0. pose proof (Hws 1%nat w1 eq_refl) as H1.
  pose proof (Hws 2%nat w2 eq_refl) as H2. simpl in H0, H1, H2.
  destruct bw_i as [|x0 [|x1 [|x2 r]]]; simpl in H0, H1, H2; try discriminate.
  injection H0 as ->. injection H1 as ->. injection H2 as ->. reflexivity.
Qed.

End VertexLoop.

Definition is_vertex (i : nat) (c : AddCall) : bool := Nat.eqb (ac_vertex c) i.

Lemma vwc_all_vertex tbl vgnames i ba_i bw_i j rem cs e :
  vertex_weight_calls tbl vgnames i ba_i bw_i j rem = (cs, e) ->
  Forall (fun c => ac_vertex c = i) cs.
Proof.
  intros H. apply Forall_forall. intros c Hin.
  apply In_nth_error in Hin as [k Hk].
  exact (proj1 (vwc_calls _ _ _ _ _ _ _ _ _ H k c Hk)).
Qed.

Lemma weight_calls_range tbl vgnames ba : forall k bw cs e,
  weight_calls tbl vgnames k ba bw = (cs, e) ->
  Forall (fun c => (k <= ac_vertex c < k + List.length ba)%nat) cs.
Proof.
  induction ba as [|ba0 rest IH]; intros k bw cs e H; simpl in H.
  - injection H as <- _. constructor.
  - destruct (nth_error bw k) as [bwk|]; [|injection H as <- _; constructor].
    destruct (vertex_weight_calls tbl vgnames k ba0 bwk 0 1) as [cs0 e0] eqn:Hv.
    pose proof (vwc_all_vertex _ _ _ _ _ _ _ _ _ Hv) as Hall.
    assert (H0 : Forall (fun c => (k <= ac_vertex c < k + List.length (ba0 :: rest))%nat) cs0).
    { eapply Forall_impl; [|exact Hall]. intros c ->. simpl. lia. }
    destruct e0 as [ex|].
    + injection H as <- _. exact H0.
    + destruct (weight_calls tbl vgnames (S k) rest bw) as [cs' e'] eqn:Hw.
      injection H as <- _. apply Forall_app. split; [exact H0|].
      eapply Forall_impl; [|exact (IH _ _ _ _ Hw)]. intros c Hc. cbv beta in Hc. simpl. lia.
Qed.

Lemma filter_vertex_all i l :
  Forall (fun c => ac_vertex c = i) l -> filter (is_vertex i) l = l.
Proof.
  induction 1 as [|c l Hc _ IH]; simpl; [reflexivity|].
  unfold is_vertex. rewrite Hc, Nat.eqb_refl. f_equal. exact IH.
Qed.

Lemma filter_vertex_none i l :
  Forall (fun c => ac_vertex c <> i) l -> filter (is_vertex i) l = [].
Proof.
  induction 1 as [|c l Hc _ IH]; simpl; [reflexivity|].
  unfold is_vertex. apply Nat.eqb_neq in Hc. rewrite Hc. exact IH.
Qed.

(** The calls for vertex [i] made by the outer loop are those of the inner
    loop for [bone_assign[i]], or none when the loop stopped earlier. *)
Lemma weight_calls_vertex tbl vgnames ba : forall k bw cs e i ba_i,
  weight_calls tbl vgnames k ba bw = (cs, e) ->
  (k <= i)%nat -> nth_error ba (i - k)%nat = Some ba_i ->
  filter (is_vertex i) cs = [] \/
  exists bw_i, nth_error bw i = Some bw_i /\
    filter (is_vertex i) cs = fst (vertex_weight_calls tbl vgnames i ba_i bw_i 0 1).
Proof.
  induction ba as [|ba0 rest IH]; intros k bw cs e i ba_i H Hki Hba; simpl in H.
  - injection H as <- _. left. reflexivity.
  - destruct (nth_error bw k) as [bwk|] eqn:Hbw; [|injection H as <- _; left; reflexivity].
    destruct (vertex_weight_calls tbl vgnames k ba0 bwk 0 1) as [cs0 e0] eqn:Hv.
    pose proof (vwc_all_vertex _ _ _ _ _ _ _ _ _ Hv) as Hall.
    destruct (Nat.eq_dec i k) as [-> | Hne].
    + rewrite Nat.sub_diag in Hba. simpl in Hba. injection Hba as <-.
      right. exists bwk. split; [exact Hbw|]. rewrite Hv. simpl.
      destruct e0 as [ex|].
      * injection H as <- _. apply filter_vertex_all, Hall.
      * destruct (weight_calls tbl vgnames (S k) rest bw) as [cs' e'] eqn:Hw.
        injection H as <- _. rewrite filter_app, filter_vertex_all by exact Hall.
        rewrite (filter_vertex_none k cs'); [apply app_nil_r|].
        eapply Forall_impl; [|exact (weight_calls_range _ _ _ _ _ _ _ Hw)].
        intros c Hc. cbv beta in Hc. lia.
    + assert (Hnone : filter (is_vertex i) cs0 = []).
      { apply filter_vertex_none. eapply Forall_impl; [|exact Hall].
        intros c ->. exact (not_eq_sym Hne). }
      destruct e0 as [ex|].
      * injection H as <- _. left. exact Hnone.
      * destruct (weight_calls tbl vgnames (S k) rest bw) as [cs' e'] eqn:Hw.
        injection H as <- _. rewrite filter_app, Hnone. simpl.
        apply (IH (S k) bw cs' e' i ba_i Hw); [lia|].
        replace (i - k)%nat with (S (i - S k)) in Hba by lia. exact Hba.
Qed.

(** C1: for every vertex [i], the fourth call of the weight loop for [i]
    (made at [j == 3]) adds to the vertex group named by
    [bone_parent_table[bone_assign[i][3]]] the weight
    1.0 - (w0 + w1 + w2) of the first three explicit weights, so that the
    three explicit weights and the implied one sum to 1.0. *)
Theorem C1_implied_fourth_weight : forall tbl vgnames ba bw cs e i c,
  weight_calls tbl vgnames 0 ba bw = (cs, e) ->
  nth_error (filter (is_vertex i) cs) 3 = Some c ->
  exists ba_i bw_i b3 w0 w1 w2,
    nth_error ba i = Some ba_i /\ nth_error bw i = Some bw_i /\
    nth_error ba_i 3 = Some b3 /\ nth_error tbl b3 = Some (ac_group c) /\
    ac_vertex c = i /\
    firstn 3 bw_i = [w0; w1; w2] /\
    ac_weight c == 1 - (w0 + w1 + w2) /\
    w0 + w1 + w2 + ac_weight c == 1.
Proof.
  intros tbl vgnames ba bw cs e i c H Hc.
  destruct (nth_error ba i) as [ba_i|] eqn:Hba.
  - destruct (weight_calls_vertex _ _ _ 0 bw cs e i ba_i H ltac:(lia))
      as [Hnil | [bw_i [Hbw Hf]]].
    { rewrite Nat.sub_0_r. exact Hba. }
    { rewrite Hnil in Hc. destruct (3%nat); discriminate. }
    rewrite Hf in Hc.
    destruct (vertex_weight_calls tbl vgnames i ba_i bw_i 0 1) as [cs0 e0] eqn:Hv.
    simpl in Hc.
    destruct (vwc_fourth _ _ _ _ _ _ _ _ Hv Hc)
      as [b3 [w0 [w1 [w2 [Hb3 [Hg [Hvx [Hw Hrem]]]]]]]].
    exists ba_i, bw_i, b3, w0, w1, w2. repeat split; try assumption.
    + rewrite Hrem. ring.
    + rewrite Hrem. ring.
  - exfalso. apply nth_error_None in Hba.
    apply nth_error_In, filter_In in Hc as [Hin Hiv].
    pose proof (proj1 (Forall_forall _ _) (weight_calls_range _ _ _ _ _ _ _ H) c Hin) as Hr.
    unfold is_vertex in Hiv. apply Nat.eqb_eq in Hiv. simpl in Hr. lia.
Qed.

(** Sample data: a bone table of two groups and a triangle group whose
    first vertex has four bone indices (the same two bones twice). *)
Definition ex_tbl : list string := ["r"; "s"]%string.

Definition ex_group : BlenderModel :=
  {| bm_name := "body";
     bm_vertices := [V3 0 0 0; V3 1 0 0; V3 0 1 0];
     bm_faces := [[0; 1; 2]%nat];
     bm_normals := [V3 0 0 1; V3 0 0 1; V3 0 0 1];
     bm_uvs := [(0, 0); (1, 0); (0, 1)];
     bm_bone_assign := [[0; 1; 0; 1]%nat; [0]%nat; [1; 1]%nat];
     bm_bone_weight := [[1 # 2; 1 # 4; 1 # 8]; [1]; [1 # 2; 1 # 4]] |}.

(** The same triangle with bone assignments for two vertices only. *)
Definition ex_bad_group : BlenderModel :=
  {| bm_name := "head";
     bm_vertices := [V3 0 0 0; V3 1 0 0; V3 0 1 0];
     bm_faces := [[0; 1; 2]%nat];
     bm_normals := [V3 0 0 1; V3 0 0 1; V3 0 0 1];
     bm_uvs := [(0, 0); (1, 0); (0, 1)];
     bm_bone_assign := [[0]%nat; [1]%nat];
     bm_bone_weight := [[1]; [1]] |}.

Lemma C1_witness : exists c,
  nth_error (filter (is_vertex 0)
    (fst (weight_calls ex_tbl ex_tbl 0
            (bm_bone_assign ex_group) (bm_bone_weight ex_group)))) 3 = Some c /\
  (1 # 2) + (1 # 4) + (1 # 8) + ac_weight c == 1.
Proof.
  exists {| ac_group := "s"; ac_vertex := 0%nat; ac_weight := 1 - (1 # 2) - (1 # 4) - (1 # 8) |}.
  assert (Hc : nth_error (filter (is_vertex 0)
    (fst (weight_calls ex_tbl ex_tbl 0
            (bm_bone_assign ex_group) (bm_bone_weight ex_group)))) 3 =
    Some {| ac_group := "s"; ac_vertex := 0%nat;
            ac_weight := 1 - (1 # 2) - (1 # 4) - (1 # 8) |})
    by (vm_compute; reflexivity).
  split; [exact Hc|].
  destruct (C1_implied_fourth_weight ex_tbl ex_tbl (bm_bone_assign ex_group)
              (bm_bone_weight ex_group) _ _ 0%nat _ (surjective_pairing _) Hc)
    as [ba_i [bw_i [b3 [w0 [w1 [w2 [_ [Hbw [_ [_ [_ [Hf [_ Hsum]]]]]]]]]]]]].
  simpl in Hbw. injection Hbw as <-. simpl in Hf. injection Hf as <- <- <-.
  exact Hsum.
Defined.

(** C10: every call of the inner loop except the one at [j == 3] carries
    the explicit weight [bone_weight[i][j]]; so a vertex with at most three
    bone indices gets no implied weight, and for a vertex with four bone
    indices only the first three entries of [bone_weight[i]] are read. *)
Theorem C10_remainder_only_at_fourth : forall tbl vgnames i ba_i bw_i,
  let cs := fst (vertex_weight_calls tbl vgnames i ba_i bw_i 0 1) in
  (forall k c, nth_error cs k = Some c -> k <> 3%nat ->
     nth_error bw_i k = Some (ac_weight c)) /\
  ((List.length ba_i <= 3)%nat -> forall k c, nth_error cs k = Some c ->
     nth_error bw_i k = Some (ac_weight c)) /\
  (List.length ba_i = 4%nat -> forall bw', firstn 3 bw' = firstn 3 bw_i ->
     vertex_weight_calls tbl vgnames i ba_i bw' 0 1 =
     vertex_weight_calls tbl vgnames i ba_i bw_i 0 1).
Proof.
  intros tbl vgnames i ba_i bw_i cs.
  assert (Hexp : forall k c, nth_error cs k = Some c -> k <> 3%nat ->
                   nth_error bw_i k = Some (ac_weight c)).
  { intros k c Hk Hne. unfold cs in Hk.
    destruct (vertex_weight_calls tbl vgnames i ba_i bw_i 0 1) as [cs0 e0] eqn:Hv.
    simpl in Hk. exact (proj2 (proj2 (vwc_calls _ _ _ _ _ _ _ _ _ Hv k c Hk)) Hne). }
  split; [exact Hexp|]. split.
  - intros Hlen k c Hk. apply (Hexp k c Hk).
    unfold cs in Hk.
    destruct (vertex_weight_calls tbl vgnames i ba_i bw_i 0 1) as [cs0 e0] eqn:Hv.
    simpl in Hk. apply vwc_length in Hv.
    assert (k < List.length cs0)%nat by (apply nth_error_Some; congruence). lia.
  - intros Hlen bw' Hf. apply vwc_reads_first_three; [lia|].
    intros m Hm. rewrite <- (Nat.ltb_lt m 3) in Hm.
    pose proof (nth_error_firstn 3 bw' m) as A. pose proof (nth_error_firstn 3 bw_i m) as B.
    rewrite Hm in A, B. cbv beta iota in A, B. rewrite <- A, <- B, Hf. reflexivity.
Qed.

(** ** [do_import] *)

Lemma set_normals_ok cur : forall src,
  (List.length cur <= List.length src)%nat ->
  set_normals cur src = (firstn (List.length cur) src, true).
Proof.
  induction cur as [|c cs IH]; intros [|n ns] Hlen; simpl in *;
    try reflexivity; try lia.
  rewrite IH by lia. reflexivity.
Qed.

Lemma set_uvs_ok uvs idxs : forall cur,
  List.length cur = List.length idxs ->
  Forall (fun v => (v < List.length uvs)%nat) idxs ->
  set_uvs cur idxs uvs = (map (fun v => nth v uvs (0, 0)) idxs, true).
Proof.
  induction idxs as [|v vs IH]; intros [|c cs] Hlen Hall; simpl in *;
    try reflexivity; try discriminate.
  inversion Hall as [|? ? Hv Hvs]; subst.
  destruct (nth_error uvs v) as [uv|] eqn:Huv.
  - rewrite IH by (lia || assumption). rewrite (nth_error_nth _ _ _ Huv). reflexivity.
  - apply nth_error_None in Huv. lia.
Qed.

Lemma empty_groups_names tbl : map vg_name (empty_groups tbl) = tbl.
Proof. unfold empty_groups. rewrite map_map. simpl. apply map_id. Qed.

(** The mesh a group loads when its normals and UVs cover it. *)
Definition loaded_mesh (m : BlenderModel) (gs : list VGroup) : MeshData :=
  mk_mesh (bm_vertices m) (bm_faces m)
    (firstn (List.length (bm_vertices m)) (bm_normals m))
    (Some (map (fun v => nth v (bm_uvs m) (0, 0)) (List.concat (bm_faces m)))) gs.

Definition mesh_covered (m : BlenderModel) : Prop :=
  (List.length (bm_vertices m) <= List.length (bm_normals m))%nat /\
  Forall (fun v => (v < List.length (bm_uvs m))%nat) (List.concat (bm_faces m)).

Lemma do_import_loaded tbl m sc :
  mesh_covered m ->
  do_import tbl m sc =
    if count_mismatch m
    then (POk (mismatch_msg (bm_name m)),
          sc ++ [mesh_obj (bm_name m) (loaded_mesh m (empty_groups tbl))])
    else
      let (cs, e) := weight_calls tbl tbl 0 (bm_bone_assign m) (bm_bone_weight m) in
      (match e with Some ex => PRaise ex | None => POk (imported_msg (bm_name m)) end,
       sc ++ [mesh_obj (bm_name m) (loaded_mesh m (apply_calls (empty_groups tbl) cs))]).
Proof.
  intros [Hn Hu]. unfold do_import.
  rewrite set_normals_ok by (rewrite length_map; exact Hn).
  rewrite set_uvs_ok by (rewrite ?repeat_length; reflexivity || exact Hu).
  rewrite length_map, empty_groups_names. simpl.
  destruct (count_mismatch m); [reflexivity|].
  destruct (weight_calls tbl tbl 0 (bm_bone_assign m) (bm_bone_weight m)) as [cs [ex|]];
    reflexivity.
Qed.

(** [do_import] adds one object and returns a value, neither depending on
    the scene it is given. *)
Lemma do_import_shape tbl m sc :
  do_import tbl m sc = (fst (do_import tbl m []), sc ++ snd (do_import tbl m [])).
Proof.
  unfold do_import.
  repeat match goal with |- context [match ?x with _ => _ end] => destruct x end;
    reflexivity.
Qed.

(** The value and the printed lines of the group loop. *)
Definition group_outcome (tbl : list string) (ms : list BlenderModel) (sc : Scene)
  (log : list LogLine) : PyResult unit * list LogLine :=
  let '(r, _, l) := import_groups tbl ms sc log in (r, l).

Lemma group_outcome_scene tbl ms : forall sc1 sc2 log,
  group_outcome tbl ms sc1 log = group_outcome tbl ms sc2 log.
Proof.
  induction ms as [|m rest IH]; intros sc1 sc2 log; unfold group_outcome; simpl;
    [reflexivity|].
  rewrite (do_import_shape tbl m sc1), (do_import_shape tbl m sc2).
  destruct (fst (do_import tbl m [])) as [s|e]; [apply IH|reflexivity].
Qed.

(** C9: the count check is not atomic: when it fails, the group's object
    has already been created and linked into the scene with its vertices,
    faces, normals, UVs and one empty vertex group per bone-table entry
    (named by the entry when the editor keeps the names as given), and it
    stays there while the error message is returned. *)
Theorem C9_mismatch_leaves_object : forall tbl m sc,
  count_mismatch m = true ->
  (List.length (bm_vertices m) <= List.length (bm_normals m))%nat ->
  Forall (fun v => (v < List.length (bm_uvs m))%nat) (List.concat (bm_faces m)) ->
  exists md,
    do_import tbl m sc =
      (POk (mismatch_msg (bm_name m)), sc ++ [mesh_obj (bm_name m) md]) /\
    me_vertices md = bm_vertices m /\
    me_faces md = bm_faces m /\
    me_normals md = firstn (List.length (bm_vertices m)) (bm_normals m) /\
    me_uvs md = Some (map (fun v => nth v (bm_uvs m) (0, 0)) (List.concat (bm_faces m))) /\
    List.length (me_vgroups md) = List.length tbl /\
    Forall (fun vg => vg_weights vg = []) (me_vgroups md) /\
    (plain_names tbl -> map vg_name (me_vgroups md) = tbl).
Proof.
  intros tbl m sc Hmis Hn Hu.
  rewrite do_import_loaded by (split; assumption). rewrite Hmis.
  exists (loaded_mesh m (empty_groups tbl)).
  split; [reflexivity|]. cbn [loaded_mesh mk_mesh me_vertices me_faces me_normals me_uvs me_vgroups].
  split; [reflexivity|]. split; [reflexivity|]. split; [reflexivity|].
  split; [reflexivity|]. split; [unfold empty_groups; apply length_map|].
  split; [|intros _; apply empty_groups_names].
  unfold empty_groups. apply Forall_forall. intros vg Hin.
  apply in_map_iff in Hin as [n [<- _]]. reflexivity.
Qed.

Lemma C9_witness :
  count_mismatch ex_bad_group = true /\
  (List.length (bm_vertices ex_bad_group) <= List.length (bm_normals ex_bad_group))%nat /\
  exists md, do_import ex_tbl ex_bad_group [] =
               (POk (mismatch_msg "head"), [mesh_obj "head" md]) /\
             map vg_name (me_vgroups md) = ["r"; "s"]%string.
Proof.
  assert (Hm : count_mismatch ex_bad_group = true) by reflexivity.
  assert (Hn : (List.length (bm_vertices ex_bad_group) <=
                List.length (bm_normals ex_bad_group))%nat) by (simpl; lia).
  split; [exact Hm|]. split; [exact Hn|].
  destruct (C9_mismatch_leaves_object ex_tbl ex_bad_group [] Hm Hn)
    as [md [Hd [_ [_ [_ [_ [_ [_ Hnames]]]]]]]]; [repeat constructor|].
  exists md. split; [exact Hd|]. apply Hnames. apply plain_namesb_spec. reflexivity.
Defined.

(** C3: a group whose vertex count differs from its [bone_assign] or
    [bone_weight] count makes [do_import] return an error message naming
    the group, with no weight added to its vertex groups; the loop of
    [execute] prints it and goes on: the groups after it give the same
    value and lines as if imported on their own. *)
Theorem C3_mismatch_per_group : forall tbl g sc,
  count_mismatch g = true ->
  (List.length (bm_vertices g) <= List.length (bm_normals g))%nat ->
  Forall (fun v => (v < List.length (bm_uvs g))%nat) (List.concat (bm_faces g)) ->
  (exists o md,
     do_import tbl g sc = (POk (mismatch_msg (bm_name g)), sc ++ [o]) /\
     so_data o = OMesh md /\ Forall (fun vg => vg_weights vg = []) (me_vgroups md)) /\
  (exists pre suf, mismatch_msg (bm_name g) = (pre ++ bm_name g ++ suf)%string) /\
  (forall ms sc2 log,
     group_outcome tbl (g :: ms) sc log =
     group_outcome tbl ms sc2 (log ++ [LLine (mismatch_msg (bm_name g))])).
Proof.
  intros tbl g sc Hmis Hn Hu.
  assert (Hd := do_import_loaded tbl g sc (conj Hn Hu)). rewrite Hmis in Hd.
  split; [|split].
  - do 2 eexists. split; [exact Hd|]. split; [reflexivity|].
    simpl. unfold empty_groups. apply Forall_forall. intros vg Hin.
    apply in_map_iff in Hin as [n [<- _]]. reflexivity.
  - exists "ERROR: Group "%string, "'s vertex index counts don't match."%string.
    reflexivity.
  - intros ms sc2 log. unfold group_outcome at 1. simpl. rewrite Hd.
    fold (group_outcome tbl ms (sc ++ [mesh_obj (bm_name g) (loaded_mesh g (empty_groups tbl))])
            (log ++ [LLine (mismatch_msg (bm_name g))])).
    apply group_outcome_scene.
Qed.

Lemma C3_witness :
  count_mismatch ex_bad_group = true /\
  group_outcome ex_tbl [ex_bad_group; ex_group] [] [] =
  group_outcome ex_tbl [ex_group] [] [LLine (mismatch_msg "head")].
Proof.
  assert (Hm : count_mismatch ex_bad_group = true) by reflexivity.
  split; [exact Hm|].
  destruct (C3_mismatch_per_group ex_tbl ex_bad_group [] Hm) as [_ [_ Hloop]];
    [simpl; lia | repeat constructor |].
  exact (Hloop [ex_group] [] []).
Defined.

(** ** Vertex-group weights *)

(** The weight of vertex [v] in the first vertex group named [g]. *)
Fixpoint vw_lookup (ws : list (nat * Q)) (v : nat) : option Q :=
  match ws with
  | [] => None
  | (u, x) :: r => if Nat.eqb u v then Some x else vw_lookup r v
  end.

Fixpoint vg_weight (gs : list VGroup) (g : string) (v : nat) : option Q :=
  match gs with
  | [] => None
  | x :: r => if String.eqb (vg_name x) g then vw_lookup (vg_weights x) v
              else vg_weight r g v
  end.

Definition targets (g : string) (v : nat) (c : AddCall) : bool :=
  String.eqb (ac_group c) g && Nat.eqb (ac_vertex c) v.

Lemma clamp01_id w : 0 <= w /\ w <= 1 -> clamp01 w = w.
Proof.
  intros [H0 H1]. unfold clamp01.
  apply Qle_bool_iff in H0. apply Qle_bool_iff in H1. rewrite H0, H1. reflexivity.
Qed.

(** One more contribution, clamped to [0, 1]: added to the weight so far,
    or the first one. *)
Definition acc_weight (acc : option Q) (w : Q) : option Q :=
  Some (match acc with None => clamp01 w | Some x => sat_add x (clamp01 w) end).

Lemma vw_lookup_add ws u w v :
  vw_lookup (add_weight ws u (clamp01 w)) v =
  if Nat.eqb u v then acc_weight (vw_lookup ws v) w else vw_lookup ws v.
Proof.
  induction ws as [|[u0 x] r IH]; simpl.
  - destruct (Nat.eqb u v); reflexivity.
  - destruct (Nat.eqb u0 u) eqn:H0.
    + apply Nat.eqb_eq in H0. subst u0. simpl.
      destruct (Nat.eqb u v); reflexivity.
    + simpl. rewrite IH.
      destruct (Nat.eqb u0 v) eqn:H1; [|reflexivity].
      apply Nat.eqb_eq in H1. subst v. rewrite Nat.eqb_sym, H0. reflexivity.
Qed.

Lemma vg_add_names gs c : map vg_name (vg_add gs c) = map vg_name gs.
Proof.
  induction gs as [|x r IH]; simpl; [reflexivity|].
  destruct (String.eqb (vg_name x) (ac_group c)); simpl; [reflexivity|].
  f_equal. exact IH.
Qed.

Lemma vg_weight_add gs c g v :
  In g (map vg_name gs) ->
  vg_weight (vg_add gs c) g v =
  if targets g v c then acc_weight (vg_weight gs g v) (ac_weight c)
  else vg_weight gs g v.
Proof.
  unfold targets. induction gs as [|x r IH]; simpl; intros Hin; [contradiction|].
  destruct (String.eqb (vg_name x) (ac_group c)) eqn:Hx; simpl.
  - apply String.eqb_eq in Hx. rewrite Hx.
    destruct (String.eqb (ac_group c) g); simpl; [apply vw_lookup_add|reflexivity].
  - destruct (String.eqb (vg_name x) g) eqn:Hg.
    + apply String.eqb_eq in Hg. subst g. rewrite String.eqb_sym, Hx. reflexivity.
    + apply IH. destruct Hin as [Heq | Hin]; [|exact Hin].
      apply String.eqb_neq in Hg. contradiction.
Qed.

Lemma apply_calls_weight cs : forall gs g v,
  In g (map vg_name gs) ->
  vg_weight (apply_calls gs cs) g v =
  fold_left acc_weight (map ac_weight (filter (targets g v) cs)) (vg_weight gs g v).
Proof.
  unfold apply_calls.
  induction cs as [|c r IH]; intros gs g v Hin; simpl; [reflexivity|].
  rewrite IH by (rewrite vg_add_names; exact Hin).
  rewrite vg_weight_add by exact Hin.
  destruct (targets g v c); reflexivity.
Qed.

Lemma vg_weight_empty tbl g v : vg_weight (empty_groups tbl) g v = None.
Proof.
  induction tbl as [|n r IH]; simpl; [reflexivity|].
  destruct (String.eqb n g); [reflexivity|exact IH].
Qed.

(** C5: the weight loop uses the [ADD] mode: with bone names the host keeps
    as they are, the weight vertex [v] ends with in group [g] is the running
    sum of all contributions made to it (each clamped to [0, 1] and the sum
    capped at 1.0 by the host), each added to the earlier ones, none
    replacing them; so two contributions w1, w2 in [0, 1] to the same group
    give w1 + w2 whenever that sum stays below 1.0. *)
Theorem C5_weights_accumulate : forall tbl m sc g v,
  plain_names tbl ->
  count_mismatch m = false ->
  (List.length (bm_vertices m) <= List.length (bm_normals m))%nat ->
  Forall (fun v => (v < List.length (bm_uvs m))%nat) (List.concat (bm_faces m)) ->
  In g tbl ->
  exists gs,
    snd (do_import tbl m sc) = sc ++ [mesh_obj (bm_name m) (loaded_mesh m gs)] /\
    vg_weight gs g v =
      fold_left acc_weight
        (map ac_weight (filter (targets g v)
           (fst (weight_calls tbl tbl 0 (bm_bone_assign m) (bm_bone_weight m)))))
        None /\
    (forall w1 w2, 0 <= w1 -> 0 <= w2 -> w1 + w2 < 1 ->
       fold_left acc_weight [w1; w2] None = Some (w1 + w2)).
Proof.
  intros tbl m sc g v _ Hmis Hn Hu Hin.
  rewrite (do_import_loaded tbl m sc (conj Hn Hu)), Hmis.
  destruct (weight_calls tbl tbl 0 (bm_bone_assign m) (bm_bone_weight m)) as [cs e] eqn:Hw.
  exists (apply_calls (empty_groups tbl) cs). split; [reflexivity|]. split.
  - rewrite apply_calls_weight by (rewrite empty_groups_names; exact Hin).
    rewrite vg_weight_empty. reflexivity.
  - intros w1 w2 H1 H2 Hlt. simpl. unfold acc_weight.
    rewrite (clamp01_id w1), (clamp01_id w2) by
      (split; [assumption|]; apply Qlt_le_weak; apply (Qle_lt_trans _ (w1 + w2)); [|exact Hlt];
       solve [rewrite <- (Qplus_0_r w1) at 1; apply Qplus_le_compat; [apply Qle_refl|exact H2]
             |rewrite <- (Qplus_0_l w2) at 1; apply Qplus_le_compat; [exact H1|apply Qle_refl]]).
    unfold sat_add.
    destruct (Qle_bool 1 (w1 + w2)) eqn:Hle; [|reflexivity].
    apply Qle_bool_iff in Hle. exfalso. apply (Qlt_not_le _ _ Hlt Hle).
Qed.

Lemma C5_witness :
  count_mismatch ex_group = false /\
  exists gs,
    snd (do_import ex_tbl ex_group []) = [mesh_obj "body" (loaded_mesh ex_group gs)] /\
    vg_weight gs "r" 0 = Some (sat_add (1 # 2) (1 # 8)).
Proof.
  assert (Hm : count_mismatch ex_group = false) by reflexivity.
  split; [exact Hm|].
  destruct (C5_weights_accumulate ex_tbl ex_group [] "r" 0
              (plain_namesb_spec ex_tbl eq_refl) Hm)
    as [gs [Hsc [Hw _]]]; [simpl; lia | repeat constructor | left; reflexivity |].
  exists gs. split; [exact Hsc|]. rewrite Hw. vm_compute. reflexivity.
Defined.

(** ** [execute] *)

Definition ex_sigs : list N := [1%N].

Definition ex_file (ft : N) (gs : Groups) : GmdcFile :=
  {| gf_file_type := ft; gf_skeleton := [ex_root; ex_child]; gf_groups := gs;
     gf_bone_parent_table := ex_tbl |}.

Definition ex_world : World :=
  {| w_log := []; w_scene := []; w_data_loaded := false; w_groups_assembled := false |}.

(** C4: when the header tag is not a supported signature, [execute] prints
    the unsupported version and returns [False] right after the header
    check: the chunk data is not loaded, no groups are assembled and the
    scene is left as it was (no armature, no mesh object). *)
Theorem C4_unsupported_header : forall sigs f w,
  load_header sigs (gf_file_type f) = false ->
  execute sigs f w =
    (RFalse, {| w_log := w_log w ++ [LUnsupported (gf_file_type f)];
                w_scene := w_scene w;
                w_data_loaded := w_data_loaded w;
                w_groups_assembled := w_groups_assembled w |}).
Proof.
  intros sigs f w H. unfold execute. rewrite H. reflexivity.
Qed.

Lemma C4_witness :
  load_header ex_sigs 2%N = false /\
  execute ex_sigs (ex_file 2%N (GModels [ex_group])) ex_world =
    (RFalse, {| w_log := [LUnsupported 2%N]; w_scene := [];
                w_data_loaded := false; w_groups_assembled := false |}).
Proof.
  assert (H : load_header ex_sigs (gf_file_type (ex_file 2%N (GModels [ex_group]))) = false)
    by reflexivity.
  split; [exact H|].
  exact (C4_unsupported_header ex_sigs (ex_file 2%N (GModels [ex_group])) ex_world H).
Defined.

Lemma import_skeleton_adds skel sc :
  exists pre bones,
    snd (import_skeleton skel sc) =
      pre ++ [{| so_name := "Armature"; so_selected := true;
                 so_data := OArmature bones |}].
Proof.
  unfold import_skeleton, import_skeleton_with.
  destruct (build_bones_loop_with exact_host skel []) as [[u|e] bones].
  - rewrite resize_apply_app, resize_apply_deselected. simpl.
    do 2 eexists. reflexivity.
  - do 2 eexists. reflexivity.
Qed.

(** C8: when [groups_from_gmdc] gives [False], [execute] still builds and
    imports the skeleton (the scene ends with the armature object) and
    finishes unless that raises; only the group loop is skipped, so no
    group line is printed. *)
Theorem C8_no_groups_still_skeleton : forall sigs f w,
  load_header sigs (gf_file_type f) = true ->
  gf_groups f = GFalse ->
  execute sigs f w =
    (match fst (import_skeleton (gf_skeleton f) (w_scene w)) with
     | POk _ => RFinished
     | PRaise e => RRaise e
     end,
     {| w_log := w_log w;
        w_scene := snd (import_skeleton (gf_skeleton f) (w_scene w));
        w_data_loaded := true; w_groups_assembled := true |}) /\
  exists pre bones,
    snd (import_skeleton (gf_skeleton f) (w_scene w)) =
      pre ++ [{| so_name := "Armature"; so_selected := true;
                 so_data := OArmature bones |}].
Proof.
  intros sigs f w Hh Hg. split; [|apply import_skeleton_adds].
  unfold execute. rewrite Hh. simpl.
  destruct (import_skeleton (gf_skeleton f) (w_scene w)) as [[u|e] sc]; simpl;
    [rewrite Hg|]; reflexivity.
Qed.

Lemma C8_witness :
  load_header ex_sigs 1%N = true /\
  fst (execute ex_sigs (ex_file 1%N GFalse) ex_world) = RFinished.
Proof.
  assert (H : load_header ex_sigs (gf_file_type (ex_file 1%N GFalse)) = true)
    by reflexivity.
  split; [exact H|].
  destruct (C8_no_groups_still_skeleton ex_sigs (ex_file 1%N GFalse) ex_world H eq_refl)
    as [He _].
  rewrite He. vm_compute. reflexivity.
Defined.

(** * Further properties of the importer *)

(** ** Helpers *)

Lemma vec_eqb_refl t : vec_eqb t t = true.
Proof. apply vec_eqb_eq. unfold vec_eq. repeat split; apply Qeq_refl. Qed.

(** The bone loop over a concatenation runs the first part, then the
    second from the bones it left, unless the first part raised. *)
Lemma build_bones_loop_app hf pre : forall rest b0,
  build_bones_loop_with hf (pre ++ rest) b0 =
  match build_bones_loop_with hf pre b0 with
  | (POk _, bs) => build_bones_loop_with hf rest bs
  | (PRaise e, bs) => (PRaise e, bs)
  end.
Proof.
  induction pre as [|bd pre IH]; intros rest b0; simpl; [reflexivity|].
  destruct (build_bone_with hf b0 bd) as [[u|e] bs]; [apply IH|reflexivity].
Qed.

(** A bone whose parent index lies past its own position raises
    [IndexError] in [amt.edit_bones[bonedata.parent]]; the bones built so
    far stay in the armature, which is not mirrored. *)
Lemma skel_forward_parent pre bd post bones p sc :
  build_bones_loop pre [] = (POk tt, bones) ->
  bd_parent bd = Some p -> (List.length pre < p)%nat ->
  import_skeleton (pre ++ bd :: post) sc =
    (PRaise IndexError,
     map deselect sc ++
       [armature_obj (bones ++ [set_tail (new_edit_bone (bd_name bd))
                                  (qrotate (bd_rotation bd) (bd_position bd))])]).
Proof.
  intros Hpre Hp Hlt.
  unfold build_bones_loop in Hpre.
  destruct (build_bones_loop_ok _ _ _ _ Hpre) as [Hlen _]. simpl in Hlen.
  unfold import_skeleton, import_skeleton_with. rewrite build_bones_loop_app, Hpre.
  cbn [build_bones_loop_with]. unfold build_bone_with. cbv zeta. rewrite Hp.
  cbn [hf_rotate exact_host].
  rewrite (proj2 (nth_error_None (bones ++ [set_tail (new_edit_bone (bd_name bd))
                                  (qrotate (bd_rotation bd) (bd_position bd))]) p))
    by (rewrite length_app; simpl; lia).
  reflexivity.
Qed.

Lemma build_bone_no_key hf bones bd : fst (build_bone_with hf bones bd) <> PRaise KeyError.
Proof.
  unfold build_bone_with. cbv zeta.
  destruct (bd_parent bd) as [p|]; [destruct (nth_error _ p)|]; simpl; discriminate.
Qed.

Lemma build_bones_loop_no_key hf skel : forall b0,
  fst (build_bones_loop_with hf skel b0) <> PRaise KeyError.
Proof.
  induction skel as [|bd rest IH]; intros b0; simpl; [discriminate|].
  pose proof (build_bone_no_key hf b0 bd) as Hb.
  destruct (build_bone_with hf b0 bd) as [[u|e] bs]; [apply IH|exact Hb].
Qed.

Lemma import_skeleton_no_key skel sc : fst (import_skeleton skel sc) <> PRaise KeyError.
Proof.
  unfold import_skeleton, import_skeleton_with.
  pose proof (build_bones_loop_no_key exact_host skel []) as Hb.
  destruct (build_bones_loop_with exact_host skel []) as [[u|e] bs]; [discriminate|exact Hb].
Qed.

(** The group names the weight loop looks up come from the table the
    vertex groups were created from, so [object.vertex_groups[grpname]]
    never misses. *)
Lemma vwc_no_key tbl i ba_i bw_i : forall j rem,
  snd (vertex_weight_calls tbl tbl i ba_i bw_i j rem) <> Some KeyError.
Proof.
  induction ba_i as [|b rest IH]; intros j rem; simpl; [discriminate|].
  destruct (nth_error tbl b) as [g|] eqn:Hg; [|discriminate].
  assert (Hin : existsb (String.eqb g) tbl = true).
  { apply existsb_exists. exists g. split; [eapply nth_error_In; exact Hg|].
    apply String.eqb_refl. }
  rewrite Hin. simpl.
  destruct (Nat.eqb j 3); simpl.
  - specialize (IH (S j) rem).
    destruct (vertex_weight_calls tbl tbl i rest bw_i (S j) rem); exact IH.
  - destruct (nth_error bw_i j) as [w|]; [|discriminate].
    specialize (IH (S j) (rem - w)).
    destruct (vertex_weight_calls tbl tbl i rest bw_i (S j) (rem - w)); exact IH.
Qed.

Lemma weight_calls_no_key tbl ba : forall k bw,
  snd (weight_calls tbl tbl k ba bw) <> Some KeyError.
Proof.
  induction ba as [|ba0 rest IH]; intros k bw; simpl; [discriminate|].
  destruct (nth_error bw k) as [bwk|]; [|discriminate].
  pose proof (vwc_no_key tbl k ba0 bwk 0 1) as Hv.
  destruct (vertex_weight_calls tbl tbl k ba0 bwk 0 1) as [cs [e|]]; [exact Hv|].
  specialize (IH (S k) bw).
  destruct (weight_calls tbl tbl (S k) rest bw); exact IH.
Qed.

Lemma do_import_no_key tbl m sc : fst (do_import tbl m sc) <> PRaise KeyError.
Proof.
  unfold do_import.
  destruct (set_normals _ _) as [ns []]; simpl; [|discriminate].
  destruct (set_uvs _ _ _) as [uvs []]; simpl; [|discriminate].
  destruct (count_mismatch m); simpl; [discriminate|].
  rewrite empty_groups_names.
  pose proof (weight_calls_no_key tbl (bm_bone_assign m) 0 (bm_bone_weight m)) as Hw.
  destruct (weight_calls tbl tbl 0 _ _) as [cs [e|]]; simpl; [|discriminate].
  intros He. injection He as ->. exact (Hw eq_refl).
Qed.

Lemma import_groups_no_key tbl ms : forall sc log,
  fst (fst (import_groups tbl ms sc log)) <> PRaise KeyError.
Proof.
  induction ms as [|m rest IH]; intros sc log; simpl; [discriminate|].
  pose proof (do_import_no_key tbl m sc) as Hd.
  destruct (do_import tbl m sc) as [[s|e] sc']; [apply IH|].
  simpl. intros H. injection H as ->. apply Hd. reflexivity.
Qed.

(** Vertex groups all of whose entries name a vertex below [n]. *)
Definition entries_below (n : nat) (gs : list VGroup) : Prop :=
  forall vg, In vg gs -> forall v w, In (v, w) (vg_weights vg) -> (v < n)%nat.

Lemma add_weight_in ws u w v x :
  In (v, x) (add_weight ws u w) -> (exists y, In (v, y) ws) \/ v = u.
Proof.
  induction ws as [|[u0 x0] r IH]; simpl; intros H.
  - destruct H as [H|[]]. injection H as H1 _. right. symmetry. exact H1.
  - destruct (Nat.eqb u0 u); simpl in H; destruct H as [H|H].
    + injection H as H1 _. subst. left. exists x0. left. reflexivity.
    + left. exists x. right. exact H.
    + injection H as H1 H2. subst. left. exists x. left. reflexivity.
    + destruct (IH H) as [[y Hy]|Hv]; [left; exists y; right; exact Hy|right; exact Hv].
Qed.

Lemma vg_add_below n gs c :
  entries_below n gs -> (ac_vertex c < n)%nat -> entries_below n (vg_add gs c).
Proof.
  induction gs as [|g r IH]; simpl; intros Hg Hc; [intros vg Hin; destruct Hin|].
  assert (Hr : entries_below n r) by (intros vg Hin; apply Hg; right; exact Hin).
  destruct (String.eqb (vg_name g) (ac_group c)).
  - intros vg [<-|Hin] v w Hvw.
    + simpl in Hvw. apply add_weight_in in Hvw.
      destruct Hvw as [[y Hy]|Hv]; [|rewrite Hv; exact Hc].
      exact (Hg g (or_introl eq_refl) v y Hy).
    + exact (Hr vg Hin v w Hvw).
  - intros vg [<-|Hin]; [apply Hg; left; reflexivity|].
    exact (IH Hr Hc vg Hin).
Qed.

Lemma apply_calls_below n cs : forall gs,
  entries_below n gs -> Forall (fun c => (ac_vertex c < n)%nat) cs ->
  entries_below n (apply_calls gs cs).
Proof.
  unfold apply_calls.
  induction cs as [|c r IH]; intros gs Hg Hcs; simpl; [exact Hg|].
  inversion Hcs as [|? ? Hc Hr]; subst.
  apply IH; [apply vg_add_below|]; assumption.
Qed.

Lemma empty_groups_below n tbl : entries_below n (empty_groups tbl).
Proof.
  intros vg Hin. unfold empty_groups in Hin.
  apply in_map_iff in Hin as [x [<- _]]. intros v w [].
Qed.

Lemma apply_calls_names cs : forall gs,
  map vg_name (apply_calls gs cs) = map vg_name gs.
Proof.
  unfold apply_calls.
  induction cs as [|c r IH]; intros gs; simpl; [reflexivity|].
  rewrite IH. apply vg_add_names.
Qed.

Lemma vg_weight_absent gs g v : ~ In g (map vg_name gs) -> vg_weight gs g v = None.
Proof.
  induction gs as [|x r IH]; simpl; intros Hn; [reflexivity|].
  destruct (String.eqb (vg_name x) g) eqn:E.
  - apply String.eqb_eq in E. exfalso. apply Hn. left. exact E.
  - apply IH. intros Hin. apply Hn. right. exact Hin.
Qed.

Lemma filter_targets_none g v cs :
  Forall (fun c => ac_vertex c <> v) cs -> filter (targets g v) cs = [].
Proof.
  induction 1 as [|c l Hc _ IH]; simpl; [reflexivity|].
  unfold targets at 1. apply Nat.eqb_neq in Hc. rewrite Hc, andb_false_r. exact IH.
Qed.

Lemma filter_targets_of_vertex g v cs :
  filter (is_vertex v) cs = [] -> filter (targets g v) cs = [].
Proof.
  induction cs as [|c r IH]; simpl; intros H; [reflexivity|].
  unfold is_vertex in H. unfold targets at 1.
  destruct (Nat.eqb (ac_vertex c) v); [discriminate|].
  rewrite andb_false_r. exact (IH H).
Qed.

(** The outer weight loop over a concatenation: the calls for the first
    vertices, then those of the rest, numbered on from there. *)
Lemma weight_calls_app tbl vg ba1 : forall ba2 k bw cs1,
  weight_calls tbl vg k ba1 bw = (cs1, None) ->
  weight_calls tbl vg k (ba1 ++ ba2) bw =
    let (cs2, e2) := weight_calls tbl vg (k + List.length ba1) ba2 bw in
    (cs1 ++ cs2, e2).
Proof.
  induction ba1 as [|b rest IH]; intros ba2 k bw cs1 H; simpl in *.
  - injection H as <-. rewrite Nat.add_0_r.
    destruct (weight_calls tbl vg k ba2 bw); reflexivity.
  - destruct (nth_error bw k) as [bwk|]; [|discriminate].
    destruct (vertex_weight_calls tbl vg k b bwk 0 1) as [cs0 [e0|]]; [discriminate|].
    destruct (weight_calls tbl vg (S k) rest bw) as [cs' e'] eqn:Hw.
    injection H as <- ->.
    rewrite (IH ba2 (S k) bw cs' Hw).
    replace (S k + List.length rest)%nat with (k + S (List.length rest))%nat by lia.
    destruct (weight_calls tbl vg (k + S (List.length rest)) ba2 bw).
    rewrite app_assoc. reflexivity.
Qed.

(** [l[i] = x] for an index in range. *)
Definition replace_at {A} (l : list A) (i : nat) (x : A) : list A :=
  firstn i l ++ x :: skipn (S i) l.

Lemma replace_at_length {A} (l : list A) i x :
  (i < List.length l)%nat -> List.length (replace_at l i x) = List.length l.
Proof.
  intros H. unfold replace_at. rewrite length_app, length_firstn. cbn [List.length].
  rewrite length_skipn. lia.
Qed.

Lemma replace_at_nth {A} (l : list A) i x j :
  (i < List.length l)%nat ->
  nth_error (replace_at l i x) j = if Nat.eqb j i then Some x else nth_error l j.
Proof.
  intros H. unfold replace_at.
  destruct (Nat.lt_trichotomy j i) as [Hlt|[->|Hgt]].
  - rewrite nth_error_app1 by (rewrite length_firstn; lia).
    rewrite nth_error_firstn. apply Nat.ltb_lt in Hlt as Hb. rewrite Hb.
    apply Nat.lt_neq, Nat.eqb_neq in Hlt. rewrite Hlt. reflexivity.
  - rewrite nth_error_app2 by (rewrite length_firstn; lia).
    rewrite length_firstn. replace (i - Nat.min i (List.length l))%nat with 0%nat by lia.
    rewrite Nat.eqb_refl. reflexivity.
  - rewrite nth_error_app2 by (rewrite length_firstn; lia).
    rewrite length_firstn. replace (j - Nat.min i (List.length l))%nat with (S (j - S i)) by lia.
    cbn [nth_error]. rewrite nth_error_skipn.
    replace (S i + (j - S i))%nat with j by lia.
    assert (Hn : Nat.eqb j i = false) by (apply Nat.eqb_neq; lia). rewrite Hn. reflexivity.
Qed.

(** The inner loop never reads [bone_weight[i][3]]: position 3 takes the
    remainder instead. *)
Lemma vwc_ignores_fourth tbl vg i ba_i bw bw' : forall j rem,
  (forall m, m <> 3%nat -> nth_error bw' m = nth_error bw m) ->
  vertex_weight_calls tbl vg i ba_i bw' j rem =
  vertex_weight_calls tbl vg i ba_i bw j rem.
Proof.
  induction ba_i as [|b rest IH]; intros j rem Hbw; simpl; [reflexivity|].
  destruct (nth_error tbl b); [|reflexivity].
  destruct (negb _); [reflexivity|].
  destruct (Nat.eqb j 3) eqn:Hj; simpl.
  - rewrite IH by exact Hbw. reflexivity.
  - apply Nat.eqb_neq in Hj. rewrite (Hbw j Hj).
    destruct (nth_error bw j); [|reflexivity].
    rewrite IH by exact Hbw. reflexivity.
Qed.

Lemma weight_calls_ignores_fourth tbl vg ba : forall k bw bw',
  List.length bw' = List.length bw ->
  (forall i x y, nth_error bw' i = Some x -> nth_error bw i = Some y ->
     forall m, m <> 3%nat -> nth_error x m = nth_error y m) ->
  weight_calls tbl vg k ba bw' = weight_calls tbl vg k ba bw.
Proof.
  induction ba as [|b rest IH]; intros k bw bw' Hlen Hbw; simpl; [reflexivity|].
  destruct (nth_error bw k) as [y|] eqn:Ey; destruct (nth_error bw' k) as [x|] eqn:Ex.
  - rewrite (vwc_ignores_fourth tbl vg k b y x 0 1 (Hbw k x y Ex Ey)).
    destruct (vertex_weight_calls tbl vg k b y 0 1) as [cs [e|]]; [reflexivity|].
    rewrite (IH (S k) bw bw' Hlen Hbw). reflexivity.
  - apply nth_error_None in Ex. assert (nth_error bw k <> None) by congruence.
    apply nth_error_Some in H. lia.
  - apply nth_error_None in Ey. assert (nth_error bw' k <> None) by congruence.
    apply nth_error_Some in H. lia.
  - reflexivity.
Qed.

(** A group with another [bone_weight] list. *)
Definition with_bone_weight (m : BlenderModel) (bw : list (list Q)) : BlenderModel :=
  {| bm_name := bm_name m; bm_vertices := bm_vertices m; bm_faces := bm_faces m;
     bm_normals := bm_normals m; bm_uvs := bm_uvs m;
     bm_bone_assign := bm_bone_assign m; bm_bone_weight := bw |}.

Lemma set_normals_short cur : forall src,
  (List.length src < List.length cur)%nat ->
  set_normals cur src = (src ++ skipn (List.length src) cur, false).
Proof.
  induction cur as [|c cs IH]; intros [|n ns] H; simpl in *; try lia; [reflexivity|].
  rewrite IH by lia. reflexivity.
Qed.

Lemma set_uvs_bad uvs idxs : forall cur,
  List.length cur = List.length idxs ->
  Exists (fun v => (List.length uvs <= v)%nat) idxs ->
  snd (set_uvs cur idxs uvs) = false.
Proof.
  induction idxs as [|v vs IH]; intros [|c cs] Hlen Hex; simpl in *.
  - inversion Hex.
  - inversion Hex.
  - discriminate.
  - destruct (nth_error uvs v) as [uv|] eqn:E; [|reflexivity].
    inversion Hex as [? ? Hv | ? ? Hvs]; subst.
    + apply nth_error_None in Hv. congruence.
    + specialize (IH cs ltac:(lia) Hvs).
      destruct (set_uvs cs vs uvs). exact IH.
Qed.

(** What [do_import] prints when it returns normally. *)
Definition group_line (m : BlenderModel) : LogLine :=
  LLine (if count_mismatch m then mismatch_msg (bm_name m) else imported_msg (bm_name m)).

Lemma do_import_ok_msg tbl m sc s :
  fst (do_import tbl m sc) = POk s -> LLine s = group_line m.
Proof.
  unfold do_import, group_line.
  destruct (set_normals _ _) as [ns []]; simpl; [|discriminate].
  destruct (set_uvs _ _ _) as [uvs []]; simpl; [|discriminate].
  destruct (count_mismatch m); simpl; [intros H; injection H as <-; reflexivity|].
  destruct (weight_calls _ _ _ _ _) as [cs [e|]]; simpl; [discriminate|].
  intros H; injection H as <-; reflexivity.
Qed.

(** The object [do_import] adds: a mesh holding the group's vertices and
    faces as read. *)
Lemma do_import_obj tbl m sc :
  exists md, snd (do_import tbl m sc) = sc ++ [mesh_obj (bm_name m) md] /\
    me_vertices md = bm_vertices m /\ me_faces md = bm_faces m.
Proof.
  unfold do_import.
  destruct (set_normals _ _) as [ns []]; simpl; [|eexists; split; [reflexivity|split; reflexivity]].
  destruct (set_uvs _ _ _) as [uvs []]; simpl; [|eexists; split; [reflexivity|split; reflexivity]].
  destruct (count_mismatch m); simpl; [eexists; split; [reflexivity|split; reflexivity]|].
  destruct (weight_calls _ _ _ _ _) as [cs [e|]]; simpl;
    eexists; split; [reflexivity|split; reflexivity| reflexivity|split; reflexivity].
Qed.

Lemma import_groups_ok tbl ms : forall sc log,
  Forall (fun m => exists s, fst (do_import tbl m []) = POk s) ms ->
  exists objs,
    import_groups tbl ms sc log = (POk tt, sc ++ objs, log ++ map group_line ms) /\
    Forall2 (fun m o => exists md, o = mesh_obj (bm_name m) md /\
               me_vertices md = bm_vertices m /\ me_faces md = bm_faces m) ms objs.
Proof.
  induction ms as [|m rest IH]; intros sc log Hall; simpl.
  - exists []. rewrite !app_nil_r. split; [reflexivity|constructor].
  - inversion Hall as [|? ? [s Hs] Hrest]; subst.
    destruct (do_import_obj tbl m []) as [md [Hsnd [Hv Hf]]].
    rewrite (do_import_shape tbl m sc), Hs, Hsnd. simpl.
    destruct (IH (sc ++ [mesh_obj (bm_name m) md]) (log ++ [LLine s]) Hrest)
      as [objs [Heq Hobjs]].
    exists (mesh_obj (bm_name m) md :: objs). rewrite Heq.
    rewrite (do_import_ok_msg tbl m [] s Hs), <- !app_assoc. split; [reflexivity|].
    constructor; [|exact Hobjs]. exists md. split; [reflexivity|split; assumption].
Qed.

Lemma import_skeleton_prefix skel sc :
  exists a, snd (import_skeleton skel sc) = map deselect sc ++ [a].
Proof.
  unfold import_skeleton, import_skeleton_with.
  destruct (build_bones_loop_with exact_host skel []) as [[u|e] bones]; simpl.
  - rewrite resize_apply_app, resize_apply_deselected. eexists. reflexivity.
  - eexists. reflexivity.
Qed.

Lemma import_groups_prefix tbl ms : forall sc log,
  exists rest, snd (fst (import_groups tbl ms sc log)) = sc ++ rest.
Proof.
  induction ms as [|m r IH]; intros sc log; simpl.
  - exists []. rewrite app_nil_r. reflexivity.
  - rewrite (do_import_shape tbl m sc).
    destruct (fst (do_import tbl m [])) as [s|e]; simpl.
    + destruct (IH (sc ++ snd (do_import tbl m [])) (log ++ [LLine s])) as [rest Hr].
      rewrite Hr, <- app_assoc. eexists. reflexivity.
    + eexists. reflexivity.
Qed.

(** ** Sample data *)

(** A bone whose parent index (5) lies past every bone built before it. *)
Definition ex_fwd : BoneData :=
  {| bd_name := "fwd"; bd_position := V3 0 1 0; bd_rotation := rot_identity;
     bd_parent := Some 5%nat |}.

(** A first bone naming itself (index 0) as its parent. *)
Definition ex_self : BoneData :=
  {| bd_name := "self"; bd_position := V3 1 0 0; bd_rotation := rot_identity;
     bd_parent := Some 0%nat |}.

Definition ex_fwd_file : GmdcFile :=
  {| gf_file_type := 1%N; gf_skeleton := [ex_root; ex_fwd];
     gf_groups := GModels [ex_group]; gf_bone_parent_table := ex_tbl |}.

(** The triangle with one normal only. *)
Definition ex_few_normals : BlenderModel :=
  {| bm_name := "arm";
     bm_vertices := [V3 0 0 0; V3 1 0 0; V3 0 1 0];
     bm_faces := [[0; 1; 2]%nat];
     bm_normals := [V3 0 0 1];
     bm_uvs := [(0, 0); (1, 0); (0, 1)];
     bm_bone_assign := [[0]%nat; [0]%nat; [0]%nat];
     bm_bone_weight := [[1]; [1]; [1]] |}.

(** The triangle with UV coordinates for two of its vertices. *)
Definition ex_few_uvs : BlenderModel :=
  {| bm_name := "leg";
     bm_vertices := [V3 0 0 0; V3 1 0 0; V3 0 1 0];
     bm_faces := [[0; 1; 2]%nat];
     bm_normals := [V3 0 0 1; V3 0 0 1; V3 0 0 1];
     bm_uvs := [(0, 0); (1, 0)];
     bm_bone_assign := [[0]%nat; [0]%nat; [0]%nat];
     bm_bone_weight := [[1]; [1]; [1]] |}.

(** The triangle whose second vertex names bone 7, past the table. *)
Definition ex_bad_bone : BlenderModel :=
  {| bm_name := "hand";
     bm_vertices := [V3 0 0 0; V3 1 0 0; V3 0 1 0];
     bm_faces := [[0; 1; 2]%nat];
     bm_normals := [V3 0 0 1; V3 0 0 1; V3 0 0 1];
     bm_uvs := [(0, 0); (1, 0); (0, 1)];
     bm_bone_assign := [[0]%nat; [7]%nat; [1]%nat];
     bm_bone_weight := [[1]; [1]; [1]] |}.

(** The triangle with four stored weights for its first vertex. *)
Definition ex_four : BlenderModel :=
  {| bm_name := "foot";
     bm_vertices := [V3 0 0 0; V3 1 0 0; V3 0 1 0];
     bm_faces := [[0; 1; 2]%nat];
     bm_normals := [V3 0 0 1; V3 0 0 1; V3 0 0 1];
     bm_uvs := [(0, 0); (1, 0); (0, 1)];
     bm_bone_assign := [[0; 1; 0; 1]%nat; [0]%nat; [1]%nat];
     bm_bone_weight := [[1 # 2; 1 # 4; 1 # 8; 1 # 16]; [1]; [1]] |}.

(** The triangle whose second vertex has no bone. *)
Definition ex_sparse : BlenderModel :=
  {| bm_name := "tail";
     bm_vertices := [V3 0 0 0; V3 1 0 0; V3 0 1 0];
     bm_faces := [[0; 1; 2]%nat];
     bm_normals := [V3 0 0 1; V3 0 0 1; V3 0 0 1];
     bm_uvs := [(0, 0); (1, 0); (0, 1)];
     bm_bone_assign := [[0]%nat; []; [1]%nat];
     bm_bone_weight := [[1]; []; [1]] |}.

(** ** Skeleton *)

(** X1: a bone whose parent index lies past its own position in the
    skeleton makes [execute] raise [IndexError] while building the
    armature: no group is imported and nothing is printed, and the scene
    keeps the unmirrored armature with the bones built before it and the
    new bone (head at the origin, tail at its rotated translation). *)
Theorem X1_forward_parent_raises : forall sigs f w pre bd post bones p,
  load_header sigs (gf_file_type f) = true ->
  gf_skeleton f = pre ++ bd :: post ->
  build_bones_loop pre [] = (POk tt, bones) ->
  bd_parent bd = Some p -> (List.length pre < p)%nat ->
  execute sigs f w =
    (RRaise IndexError,
     {| w_log := w_log w;
        w_scene := map deselect (w_scene w) ++
          [armature_obj (bones ++ [set_tail (new_edit_bone (bd_name bd))
                                     (qrotate (bd_rotation bd) (bd_position bd))])];
        w_data_loaded := true; w_groups_assembled := true |}).
Proof.
  intros sigs f w pre bd post bones p Hh Hs Hpre Hp Hlt.
  unfold execute. rewrite Hh, Hs. simpl.
  rewrite (skel_forward_parent pre bd post bones p (w_scene w) Hpre Hp Hlt).
  reflexivity.
Qed.

Lemma X1_witness :
  load_header ex_sigs (gf_file_type ex_fwd_file) = true /\
  fst (execute ex_sigs ex_fwd_file ex_world) = RRaise IndexError.
Proof.
  assert (Hh : load_header ex_sigs (gf_file_type ex_fwd_file) = true) by reflexivity.
  split; [exact Hh|].
  assert (Hb : build_bones_loop [ex_root] [] = (POk tt, snd (build_bones_loop [ex_root] [])))
    by (vm_compute; reflexivity).
  rewrite (X1_forward_parent_raises ex_sigs ex_fwd_file ex_world [ex_root] ex_fwd []
             (snd (build_bones_loop [ex_root] [])) 5 Hh eq_refl Hb eq_refl
             ltac:(simpl; lia)).
  reflexivity.
Defined.

(** X2: a bone that names its own index as its parent finds itself in
    [amt.edit_bones]: its head is set to its own tail, so the host finds
    it zero-length and its tail is moved by (0, 0.00001, 0) with the
    host's float addition; the armature then goes through leaving edit
    mode, the scale and leaving edit mode again, which free the bone if
    the host finds it too short. *)
Theorem X2_self_parent : forall hf skel sc u sc' k bd,
  (forall v, hf_eq hf v v = true) ->
  import_skeleton_with hf skel sc = (POk u, sc') ->
  nth_error skel k = Some bd -> bd_parent bd = Some k ->
  exists bones b,
    build_bones_loop_with hf skel [] = (POk tt, bones) /\
    sc' = map deselect sc ++
            [armature_obj (mode_set_object hf
               (map (scale_bone resize_value) (mode_set_object hf bones)))] /\
    nth_error bones k = Some b /\
    eb_head b = hf_rotate hf (bd_rotation bd) (bd_position bd) /\
    eb_tail b = hf_add hf (hf_rotate hf (bd_rotation bd) (bd_position bd)) zero_len_fix.
Proof.
  intros hf skel sc u sc' k bd Hrefl H Hk Hp.
  destruct (import_skeleton_ok _ _ _ _ _ H) as [bones [Hb Hsc]].
  destruct (build_bones_loop_ok _ _ _ _ Hb) as [_ [_ Hall]].
  destruct (Hall k bd Hk) as [b [Hnth Hsh]]. simpl in Hnth, Hsh.
  unfold bone_shape, expected_head in Hsh. rewrite Hp in Hsh.
  rewrite (proj2 (nth_error_None (firstn k bones) k)) in Hsh
    by (rewrite length_firstn; lia).
  rewrite Hrefl in Hsh. destruct Hsh as [_ [Hh [Ht _]]].
  exists bones, b. repeat split; assumption.
Qed.

Lemma X2_witness :
  (forall v, hf_eq exact_host v v = true) /\
  import_skeleton_with exact_host [ex_self] [] =
    (POk tt, snd (import_skeleton_with exact_host [ex_self] [])) /\
  exists bones b, nth_error bones 0 = Some b /\
    eb_tail b = vadd (qrotate rot_identity (V3 1 0 0)) zero_len_fix.
Proof.
  assert (Hr : forall v, hf_eq exact_host v v = true) by exact vec_eqb_refl.
  assert (H : import_skeleton_with exact_host [ex_self] [] =
                (POk tt, snd (import_skeleton_with exact_host [ex_self] [])))
    by (vm_compute; reflexivity).
  split; [exact Hr|]. split; [exact H|].
  destruct (X2_self_parent exact_host [ex_self] [] tt _ 0 ex_self Hr H eq_refl eq_refl)
    as [bones [b [_ [_ [Hn [_ Ht]]]]]].
  exists bones, b. split; [exact Hn|exact Ht].
Defined.

(** X3: with an empty skeleton, [import_skeleton] still adds one selected
    armature object, with no bones, and deselects every other object. *)
Theorem X3_empty_skeleton : forall sc,
  import_skeleton [] sc = (POk tt, map deselect sc ++ [armature_obj []]).
Proof.
  intros sc. unfold import_skeleton, import_skeleton_with. simpl.
  rewrite resize_apply_app, resize_apply_deselected. reflexivity.
Qed.

(** ** Whole import *)

(** X4: for a bone table whose names the editor keeps as given, [execute]
    never raises [KeyError]: the only exceptions of the import are
    [IndexError]s (the vertex-group lookup by name always finds the group,
    since the groups were made from the same table). *)
Theorem X4_no_key_error : forall sigs f w,
  plain_names (gf_bone_parent_table f) ->
  fst (execute sigs f w) <> RRaise KeyError.
Proof.
  intros sigs f w _. unfold execute.
  destruct (load_header sigs (gf_file_type f)); simpl; [|discriminate].
  pose proof (import_skeleton_no_key (gf_skeleton f) (w_scene w)) as Hs.
  destruct (import_skeleton (gf_skeleton f) (w_scene w)) as [[u|e] sc].
  - destruct (gf_groups f) as [|ms]; simpl; [discriminate|].
    pose proof (import_groups_no_key (gf_bone_parent_table f) ms sc (w_log w)) as Hg.
    destruct (import_groups (gf_bone_parent_table f) ms sc (w_log w)) as [[[u'|e'] sc'] log'];
      simpl; [discriminate|].
    intros H. injection H as ->. apply Hg. reflexivity.
  - simpl. intros H. injection H as ->. apply Hs. reflexivity.
Qed.

Lemma X4_witness :
  plain_names (gf_bone_parent_table (ex_file 1%N (GModels [ex_bad_bone; ex_group]))) /\
  fst (execute ex_sigs (ex_file 1%N (GModels [ex_bad_bone; ex_group])) ex_world)
    <> RRaise KeyError.
Proof.
  assert (Hp : plain_names (gf_bone_parent_table (ex_file 1%N (GModels [ex_bad_bone; ex_group]))))
    by (apply plain_namesb_spec; reflexivity).
  split; [exact Hp|].
  exact (X4_no_key_error ex_sigs (ex_file 1%N (GModels [ex_bad_bone; ex_group])) ex_world Hp).
Defined.

(** X5: [execute] never changes, removes or reorders an object that was
    in the scene: with a rejected header the scene is as it was, and
    otherwise it is the old objects, only deselected, followed by the new
    ones. *)
Theorem X5_existing_objects_kept : forall sigs f w,
  (load_header sigs (gf_file_type f) = false /\
   w_scene (snd (execute sigs f w)) = w_scene w) \/
  (load_header sigs (gf_file_type f) = true /\
   exists rest, w_scene (snd (execute sigs f w)) = map deselect (w_scene w) ++ rest).
Proof.
  intros sigs f w. unfold execute.
  destruct (load_header sigs (gf_file_type f)); simpl; [right|left; split; reflexivity].
  split; [reflexivity|].
  destruct (import_skeleton_prefix (gf_skeleton f) (w_scene w)) as [a Ha].
  destruct (import_skeleton (gf_skeleton f) (w_scene w)) as [[u|e] sc]; simpl in Ha; subst sc.
  - destruct (gf_groups f) as [|ms]; simpl; [eexists; reflexivity|].
    destruct (import_groups_prefix (gf_bone_parent_table f) ms
                (map deselect (w_scene w) ++ [a]) (w_log w)) as [rest Hr].
    destruct (import_groups _ ms _ _) as [[r sc'] log']. simpl in Hr |- *.
    rewrite Hr, <- app_assoc. eexists. reflexivity.
  - eexists. reflexivity.
Qed.

(** X6: when the armature is built and no group raises, [execute]
    finishes, prints one line per group in order (the count-mismatch error
    or "Group <name> imported."), and adds after the armature one
    unselected mesh object per group, named after it, whose vertices and
    faces are the group's as read (not mirrored like the armature). *)
Theorem X6_all_groups_imported : forall sigs f w ms,
  load_header sigs (gf_file_type f) = true ->
  fst (import_skeleton (gf_skeleton f) (w_scene w)) = POk tt ->
  gf_groups f = GModels ms ->
  Forall (fun m => exists s, fst (do_import (gf_bone_parent_table f) m []) = POk s) ms ->
  exists objs,
    execute sigs f w =
      (RFinished,
       {| w_log := w_log w ++ map group_line ms;
          w_scene := snd (import_skeleton (gf_skeleton f) (w_scene w)) ++ objs;
          w_data_loaded := true; w_groups_assembled := true |}) /\
    Forall2 (fun m o => exists md, o = mesh_obj (bm_name m) md /\
               me_vertices md = bm_vertices m /\ me_faces md = bm_faces m) ms objs.
Proof.
  intros sigs f w ms Hh Hsk Hg Hall. unfold execute. rewrite Hh. simpl.
  destruct (import_skeleton (gf_skeleton f) (w_scene w)) as [r sc]. simpl in Hsk |- *.
  subst r. rewrite Hg.
  destruct (import_groups_ok (gf_bone_parent_table f) ms sc (w_log w) Hall)
    as [objs [Heq Hobjs]].
  rewrite Heq. exists objs. split; [reflexivity|exact Hobjs].
Qed.

Lemma X6_witness :
  load_header ex_sigs (gf_file_type (ex_file 1%N (GModels [ex_bad_group; ex_group]))) = true /\
  fst (import_skeleton [ex_root; ex_child] []) = POk tt /\
  fst (execute ex_sigs (ex_file 1%N (GModels [ex_bad_group; ex_group])) ex_world) = RFinished /\
  w_log (snd (execute ex_sigs (ex_file 1%N (GModels [ex_bad_group; ex_group])) ex_world)) =
    [LLine (mismatch_msg "head"); LLine (imported_msg "body")].
Proof.
  assert (Hh : load_header ex_sigs (gf_file_type (ex_file 1%N (GModels [ex_bad_group; ex_group])))
               = true) by reflexivity.
  assert (Hs : fst (import_skeleton [ex_root; ex_child] []) = POk tt)
    by (vm_compute; reflexivity).
  assert (Hall : Forall (fun m => exists s, fst (do_import ex_tbl m []) = POk s)
                   [ex_bad_group; ex_group]).
  { constructor; [exists (mismatch_msg "head")|constructor; [exists (imported_msg "body")|constructor]];
      vm_compute; reflexivity. }
  destruct (X6_all_groups_imported ex_sigs (ex_file 1%N (GModels [ex_bad_group; ex_group]))
              ex_world [ex_bad_group; ex_group] Hh Hs eq_refl Hall) as [objs [He _]].
  rewrite He. split; [exact Hh|]. split; [exact Hs|]. split; [reflexivity|].
  vm_compute. reflexivity.
Defined.

Lemma import_groups_mismatch tbl m ms sc log :
  count_mismatch m = true -> mesh_covered m ->
  import_groups tbl (m :: ms) sc log =
  import_groups tbl ms (sc ++ snd (do_import tbl m []))
    (log ++ [LLine (mismatch_msg (bm_name m))]).
Proof.
  intros Hmis Hc. cbn [import_groups].
  rewrite (do_import_shape tbl m sc), (do_import_loaded tbl m [] Hc), Hmis.
  reflexivity.
Qed.

(** X7: the group loop of [execute] stops at the first group whose
    [do_import] raises: the groups after it are never imported (the
    outcome does not depend on them), the loop ends in that exception
    after printing one line for each group before it; a count mismatch,
    instead, is printed and the loop goes on with the next group. *)
Theorem X7_group_raise_stops_loop : forall tbl ms1 g ms2 ms2' sc log e,
  Forall (fun m => exists s, fst (do_import tbl m []) = POk s) ms1 ->
  fst (do_import tbl g []) = PRaise e ->
  import_groups tbl (ms1 ++ g :: ms2) sc log = import_groups tbl (ms1 ++ g :: ms2') sc log /\
  fst (fst (import_groups tbl (ms1 ++ g :: ms2) sc log)) = PRaise e /\
  snd (import_groups tbl (ms1 ++ g :: ms2) sc log) = log ++ map group_line ms1 /\
  (forall m ms sc0 log0, count_mismatch m = true -> mesh_covered m ->
     import_groups tbl (m :: ms) sc0 log0 =
     import_groups tbl ms (sc0 ++ snd (do_import tbl m []))
       (log0 ++ [LLine (mismatch_msg (bm_name m))])).
Proof.
  intros tbl ms1 g ms2 ms2' sc log e Hall He.
  split; [|split; [|split]].
  - clear Hall. revert sc log. induction ms1 as [|m rest IH]; intros sc log; simpl.
    + rewrite (do_import_shape tbl g sc), He. reflexivity.
    + destruct (do_import tbl m sc) as [[s|e0] sc']; [apply IH|reflexivity].
  - revert sc log. induction Hall as [|m rest [s Hs] _ IH]; intros sc log; simpl.
    + rewrite (do_import_shape tbl g sc), He. reflexivity.
    + rewrite (do_import_shape tbl m sc), Hs. apply IH.
  - revert sc log. induction Hall as [|m rest [s Hs] _ IH]; intros sc log; simpl.
    + rewrite (do_import_shape tbl g sc), He. simpl. rewrite app_nil_r. reflexivity.
    + rewrite (do_import_shape tbl m sc), Hs. rewrite IH.
      rewrite (do_import_ok_msg tbl m [] s Hs), <- app_assoc. reflexivity.
  - intros m ms sc0 log0. apply import_groups_mismatch.
Qed.

Lemma X7_witness :
  Forall (fun m => exists s, fst (do_import ex_tbl m []) = POk s) [ex_group] /\
  fst (do_import ex_tbl ex_bad_bone []) = PRaise IndexError /\
  import_groups ex_tbl [ex_group; ex_bad_bone; ex_group] [] [] =
    import_groups ex_tbl [ex_group; ex_bad_bone] [] [] /\
  snd (import_groups ex_tbl [ex_group; ex_bad_bone; ex_group] [] []) =
    [LLine (imported_msg "body")].
Proof.
  assert (Hall : Forall (fun m => exists s, fst (do_import ex_tbl m []) = POk s) [ex_group])
    by (constructor; [exists (imported_msg "body"); vm_compute; reflexivity|constructor]).
  assert (He : fst (do_import ex_tbl ex_bad_bone []) = PRaise IndexError)
    by (vm_compute; reflexivity).
  split; [exact Hall|]. split; [exact He|].
  destruct (X7_group_raise_stops_loop ex_tbl [ex_group] ex_bad_bone [ex_group] [] [] []
              IndexError Hall He) as [Heq [_ [Hlog _]]].
  cbn [app] in Heq, Hlog.
  split; [exact Heq|]. rewrite Hlog. vm_compute. reflexivity.
Defined.

(** ** [do_import] *)

(** X8: every weight [do_import] leaves in a vertex group, whatever the
    outcome (including a group stopped by an exception half way), is for a
    vertex of the group's mesh: its index is below the number of
    vertices. *)
Theorem X8_weights_on_existing_vertices : forall tbl m sc,
  exists o md,
    snd (do_import tbl m sc) = sc ++ [o] /\ so_data o = OMesh md /\
    forall vg, In vg (me_vgroups md) ->
      forall v w, In (v, w) (vg_weights vg) -> (v < List.length (bm_vertices m))%nat.
Proof.
  intros tbl m sc. unfold do_import.
  destruct (set_normals _ _) as [ns []]; simpl;
    [|do 2 eexists; split; [reflexivity|split; [reflexivity|intros vg []]]].
  destruct (set_uvs _ _ _) as [uvs []]; simpl;
    [|do 2 eexists; split; [reflexivity|split; [reflexivity|intros vg []]]].
  destruct (count_mismatch m) eqn:Hm; simpl.
  - do 2 eexists. split; [reflexivity|split; [reflexivity|apply empty_groups_below]].
  - unfold count_mismatch in Hm. apply orb_false_iff in Hm as [Ha _].
    apply negb_false_iff, Nat.eqb_eq in Ha.
    destruct (weight_calls _ _ 0 _ _) as [cs e] eqn:Hw.
    pose proof (weight_calls_range _ _ _ _ _ _ _ Hw) as Hr.
    assert (Hb : entries_below (List.length (bm_vertices m)) (apply_calls (empty_groups tbl) cs)).
    { apply apply_calls_below; [apply empty_groups_below|].
      eapply Forall_impl; [|exact Hr]. intros c Hc. cbv beta in Hc. lia. }
    destruct e; simpl; do 2 eexists; (split; [reflexivity|split; [reflexivity|exact Hb]]).
Qed.

(** X9: [do_import] creates one vertex group per bone-table entry, in
    table order, named by the entry, also for bones no vertex uses; the
    weight loop adds none and renames none.  (For a table whose names the
    editor keeps as given: it renames a repeated or empty name and cuts a
    long one.) *)
Theorem X9_one_group_per_bone : forall tbl m sc,
  plain_names tbl -> mesh_covered m ->
  exists gs,
    snd (do_import tbl m sc) = sc ++ [mesh_obj (bm_name m) (loaded_mesh m gs)] /\
    map vg_name gs = tbl.
Proof.
  intros tbl m sc _ Hc. rewrite (do_import_loaded tbl m sc Hc).
  destruct (count_mismatch m).
  - exists (empty_groups tbl). split; [reflexivity|apply empty_groups_names].
  - destruct (weight_calls tbl tbl 0 _ _) as [cs e].
    exists (apply_calls (empty_groups tbl) cs).
    split; [destruct e; reflexivity|].
    rewrite apply_calls_names. apply empty_groups_names.
Qed.

Lemma X9_witness :
  plain_names ex_tbl /\ mesh_covered ex_group /\
  exists gs, snd (do_import ex_tbl ex_group []) = [mesh_obj "body" (loaded_mesh ex_group gs)] /\
    map vg_name gs = ["r"; "s"]%string.
Proof.
  assert (Hn : plain_names ex_tbl) by (apply plain_namesb_spec; reflexivity).
  assert (Hc : mesh_covered ex_group) by (split; [simpl; lia|repeat constructor]).
  split; [exact Hn|]. split; [exact Hc|].
  exact (X9_one_group_per_bone ex_tbl ex_group [] Hn Hc).
Defined.

(** X10: a group with fewer normals than vertices makes [do_import] raise
    [IndexError] in the normals loop; its object stays in the scene with
    the vertices, the faces and the normals there were, but no UV layer
    and no vertex group. *)
Theorem X10_missing_normals : forall tbl m sc,
  (List.length (bm_normals m) < List.length (bm_vertices m))%nat ->
  exists md,
    do_import tbl m sc = (PRaise IndexError, sc ++ [mesh_obj (bm_name m) md]) /\
    me_vertices md = bm_vertices m /\ me_faces md = bm_faces m /\
    firstn (List.length (bm_normals m)) (me_normals md) = bm_normals m /\
    me_uvs md = None /\ me_vgroups md = [].
Proof.
  intros tbl m sc Hlt. unfold do_import.
  rewrite set_normals_short by (rewrite length_map; exact Hlt). simpl.
  eexists. split; [reflexivity|]. simpl.
  rewrite firstn_app, Nat.sub_diag, firstn_all. simpl. rewrite app_nil_r.
  repeat split; reflexivity.
Qed.

Lemma X10_witness :
  (List.length (bm_normals ex_few_normals) < List.length (bm_vertices ex_few_normals))%nat /\
  fst (do_import ex_tbl ex_few_normals []) = PRaise IndexError.
Proof.
  assert (H : (List.length (bm_normals ex_few_normals) <
               List.length (bm_vertices ex_few_normals))%nat) by (simpl; lia).
  split; [exact H|].
  destruct (X10_missing_normals ex_tbl ex_few_normals [] H) as [md [Hd _]].
  rewrite Hd. reflexivity.
Defined.

(** X11: a face corner whose vertex index has no UV coordinate makes
    [do_import] raise [IndexError] in the UV loop; its object stays in
    the scene with its vertices, its normals and a UV layer, but no
    vertex group and so no weight. *)
Theorem X11_missing_uv : forall tbl m sc,
  (List.length (bm_vertices m) <= List.length (bm_normals m))%nat ->
  Exists (fun v => (List.length (bm_uvs m) <= v)%nat) (List.concat (bm_faces m)) ->
  exists md,
    do_import tbl m sc = (PRaise IndexError, sc ++ [mesh_obj (bm_name m) md]) /\
    me_vertices md = bm_vertices m /\
    me_normals md = firstn (List.length (bm_vertices m)) (bm_normals m) /\
    me_uvs md <> None /\ me_vgroups md = [].
Proof.
  intros tbl m sc Hn Hu. unfold do_import.
  rewrite set_normals_ok by (rewrite length_map; exact Hn). rewrite length_map. simpl.
  pose proof (set_uvs_bad (bm_uvs m) (List.concat (bm_faces m))
                (repeat (0, 0) (List.length (List.concat (bm_faces m))))
                (repeat_length _ _) Hu) as Hb.
  destruct (set_uvs _ _ _) as [uvs ok]. simpl in Hb. subst ok. simpl.
  eexists. split; [reflexivity|]. simpl.
  repeat split; [discriminate].
Qed.

Lemma X11_witness :
  Exists (fun v => (List.length (bm_uvs ex_few_uvs) <= v)%nat) (List.concat (bm_faces ex_few_uvs)) /\
  fst (do_import ex_tbl ex_few_uvs []) = PRaise IndexError.
Proof.
  assert (Hu : Exists (fun v => (List.length (bm_uvs ex_few_uvs) <= v)%nat)
                 (List.concat (bm_faces ex_few_uvs))).
  { simpl. right. right. left. lia. }
  split; [exact Hu|].
  destruct (X11_missing_uv ex_tbl ex_few_uvs [] ltac:(simpl; lia) Hu) as [md [Hd _]].
  rewrite Hd. reflexivity.
Defined.

(** X12: the weights are applied vertex by vertex and never rolled back:
    once the loop has gone through the first vertices without an
    exception, their weights are those final in every vertex group,
    whatever happens at the later vertices (an out-of-table bone index
    there raises, but does not undo or change them). *)
Theorem X12_earlier_weights_kept : forall tbl m sc ba1 ba2 cs1 g v,
  mesh_covered m -> count_mismatch m = false ->
  bm_bone_assign m = ba1 ++ ba2 ->
  weight_calls tbl tbl 0 ba1 (bm_bone_weight m) = (cs1, None) ->
  (v < List.length ba1)%nat ->
  exists gs,
    snd (do_import tbl m sc) = sc ++ [mesh_obj (bm_name m) (loaded_mesh m gs)] /\
    vg_weight gs g v = vg_weight (apply_calls (empty_groups tbl) cs1) g v.
Proof.
  intros tbl m sc ba1 ba2 cs1 g v Hc Hm Hba Hw1 Hv.
  rewrite (do_import_loaded tbl m sc Hc), Hm, Hba, (weight_calls_app _ _ _ ba2 _ _ _ Hw1).
  destruct (weight_calls tbl tbl (0 + List.length ba1) ba2 (bm_bone_weight m))
    as [cs2 e2] eqn:Hw2.
  exists (apply_calls (empty_groups tbl) (cs1 ++ cs2)).
  split; [destruct e2; reflexivity|].
  destruct (in_dec string_dec g tbl) as [Hin|Hout].
  - rewrite !apply_calls_weight by (rewrite empty_groups_names; exact Hin).
    rewrite filter_app, (filter_targets_none g v cs2), app_nil_r; [reflexivity|].
    eapply Forall_impl; [|exact (weight_calls_range _ _ _ _ _ _ _ Hw2)].
    intros c Hc'. cbv beta in Hc'. lia.
  - rewrite !vg_weight_absent; [reflexivity| |];
      rewrite apply_calls_names, empty_groups_names; exact Hout.
Qed.

Lemma X12_witness :
  fst (do_import ex_tbl ex_bad_bone []) = PRaise IndexError /\
  exists gs,
    snd (do_import ex_tbl ex_bad_bone []) = [mesh_obj "hand" (loaded_mesh ex_bad_bone gs)] /\
    vg_weight gs "r" 0 = Some 1.
Proof.
  split; [vm_compute; reflexivity|].
  assert (Hc : mesh_covered ex_bad_bone) by (split; [simpl; lia|repeat constructor]).
  assert (Hw : weight_calls ex_tbl ex_tbl 0 [[0%nat]] (bm_bone_weight ex_bad_bone) =
               (fst (weight_calls ex_tbl ex_tbl 0 [[0%nat]] (bm_bone_weight ex_bad_bone)), None))
    by reflexivity.
  destruct (X12_earlier_weights_kept ex_tbl ex_bad_bone [] [[0%nat]] [[7%nat]; [1%nat]]
              _ "r"%string 0 Hc eq_refl eq_refl Hw ltac:(simpl; lia)) as [gs [Hs Hg]].
  exists gs. split; [exact Hs|]. rewrite Hg. vm_compute. reflexivity.
Defined.

(** X13: [bone_weight[i][3]] is never read: position 3 of a vertex takes
    the remainder, so changing the fourth stored weight of any vertex
    changes nothing [do_import] does. *)
Theorem X13_fourth_weight_unused : forall tbl m sc i bw_i x,
  nth_error (bm_bone_weight m) i = Some bw_i -> (3 < List.length bw_i)%nat ->
  do_import tbl (with_bone_weight m (replace_at (bm_bone_weight m) i (replace_at bw_i 3 x))) sc =
  do_import tbl m sc.
Proof.
  intros tbl m sc i bw_i x Hi H3.
  assert (Hil : (i < List.length (bm_bone_weight m))%nat)
    by (apply nth_error_Some; congruence).
  set (bw' := replace_at (bm_bone_weight m) i (replace_at bw_i 3 x)).
  assert (Hlen : List.length bw' = List.length (bm_bone_weight m))
    by (apply replace_at_length; exact Hil).
  assert (Hc : count_mismatch (with_bone_weight m bw') = count_mismatch m)
    by (unfold count_mismatch; simpl; rewrite Hlen; reflexivity).
  assert (Hw : forall vg, weight_calls tbl vg 0 (bm_bone_assign m) bw' =
                          weight_calls tbl vg 0 (bm_bone_assign m) (bm_bone_weight m)).
  { intros vg. apply weight_calls_ignores_fourth; [exact Hlen|].
    intros j a b Ha Hb mm Hmm. unfold bw' in Ha.
    rewrite replace_at_nth in Ha by exact Hil.
    destruct (Nat.eqb j i) eqn:Hj.
    - apply Nat.eqb_eq in Hj. subst j. rewrite Hi in Hb.
      injection Ha as <-. injection Hb as <-.
      rewrite replace_at_nth by exact H3.
      apply Nat.eqb_neq in Hmm. rewrite Hmm. reflexivity.
    - rewrite Ha in Hb. injection Hb as <-. reflexivity. }
  unfold do_import. rewrite Hc. cbn [bm_name bm_vertices bm_faces bm_normals bm_uvs
    bm_bone_assign bm_bone_weight with_bone_weight].
  rewrite Hw. reflexivity.
Qed.

Lemma X13_witness :
  nth_error (bm_bone_weight ex_four) 0 = Some [1 # 2; 1 # 4; 1 # 8; 1 # 16] /\
  do_import ex_tbl (with_bone_weight ex_four
     (replace_at (bm_bone_weight ex_four) 0 (replace_at [1 # 2; 1 # 4; 1 # 8; 1 # 16] 3 5))) [] =
  do_import ex_tbl ex_four [].
Proof.
  split; [reflexivity|].
  apply X13_fourth_weight_unused; [reflexivity|simpl; lia].
Defined.

(** X14: a vertex whose [bone_assign] entry is empty gets no weight in any
    vertex group. *)
Theorem X14_unassigned_vertex : forall tbl m sc i g,
  mesh_covered m -> count_mismatch m = false ->
  nth_error (bm_bone_assign m) i = Some [] ->
  exists gs,
    snd (do_import tbl m sc) = sc ++ [mesh_obj (bm_name m) (loaded_mesh m gs)] /\
    vg_weight gs g i = None.
Proof.
  intros tbl m sc i g Hc Hm Hi.
  rewrite (do_import_loaded tbl m sc Hc), Hm.
  destruct (weight_calls tbl tbl 0 (bm_bone_assign m) (bm_bone_weight m)) as [cs e] eqn:Hw.
  exists (apply_calls (empty_groups tbl) cs). split; [destruct e; reflexivity|].
  assert (Hf : filter (is_vertex i) cs = []).
  { destruct (weight_calls_vertex _ _ _ 0 _ _ _ i [] Hw ltac:(lia)
                ltac:(rewrite Nat.sub_0_r; exact Hi)) as [H|[bw_i [_ H]]];
      [exact H|rewrite H; reflexivity]. }
  destruct (in_dec string_dec g tbl) as [Hin|Hout].
  - rewrite apply_calls_weight by (rewrite empty_groups_names; exact Hin).
    rewrite (filter_targets_of_vertex g i cs Hf), vg_weight_empty. reflexivity.
  - apply vg_weight_absent. rewrite apply_calls_names, empty_groups_names. exact Hout.
Qed.

Lemma X14_witness :
  mesh_covered ex_sparse /\
  exists gs, snd (do_import ex_tbl ex_sparse []) = [mesh_obj "tail" (loaded_mesh ex_sparse gs)] /\
    vg_weight gs "r" 1 = None /\ vg_weight gs "s" 1 = None.
Proof.
  assert (Hc : mesh_covered ex_sparse) by (split; [simpl; lia|repeat constructor]).
  split; [exact Hc|].
  destruct (X14_unassigned_vertex ex_tbl ex_sparse [] 1 "r" Hc eq_refl eq_refl)
    as [gs [Hs Hr]].
  exists gs. split; [exact Hs|]. split; [exact Hr|].
  destruct (X14_unassigned_vertex ex_tbl ex_sparse [] 1 "s" Hc eq_refl eq_refl)
    as [gs' [Hs' Hs2]].
  rewrite Hs in Hs'. apply app_inv_head in Hs'. injection Hs' as <-. exact Hs2.
Defined.
